(** * FutureOptionShortPutOTMExpiryRegressionAlgorithm

    A shallow embedding of
    [Algorithm.Python/FutureOptionShortPutOTMExpiryRegressionAlgorithm.py]
    and the properties of its callbacks.

    The algorithm is a subclass of the engine's [QCAlgorithm]: every method
    reads and writes attributes of [self] and calls the engine through
    [self].  The embedding keeps that shape: a [World] record holds the
    three attributes the script assigns together with the part of the engine
    state the script can observe or change, and every method is a
    computation in a state-and-exception monad over [World].  A Python
    [raise] keeps the mutations made before it, so the monad returns the
    state on both outcomes. *)

From Stdlib Require Import ZArith QArith List String Bool Lia.
From Stdlib Require Import Sorted Permutation.
Import ListNotations.

Local Open Scope string_scope.
Local Open Scope list_scope.
Local Open Scope Z_scope.

Set Implicit Arguments.

(** ** Host data *)

(** [datetime(y, m, d)] and the engine's [DateTime]: a calendar stamp,
    compared field by field. *)
Record datetime : Type := mkDatetime {
  year : Z; month : Z; day : Z;
  hour : Z; minute : Z; second : Z; microsecond : Z }.

Definition date (y m d : Z) : datetime := mkDatetime y m d 0 0 0 0.

Definition datetime_eq_dec : forall a b : datetime, {a = b} + {a <> b}.
Proof. decide equality; apply Z.eq_dec. Defined.

Inductive SecurityType := SecEquity | SecFuture | SecFutureOption.
Inductive OptionRight := Call | Put.
Inductive OptionStyle := American | European.
Inductive Resolution := Tick | Second | Minute | Hour | Daily.
Inductive OrderStatus :=
  New | Submitted | PartiallyFilled | Filled | Canceled | NoStatus
| Invalid | CancelPending | UpdateSubmitted.
Inductive OrderDirection := Buy | Sell | Hold.
Inductive DelistingType := Warning | Delisted.

Definition OptionRight_eq_dec : forall a b : OptionRight, {a = b} + {a <> b}.
Proof. decide equality. Defined.
Definition OrderStatus_eq_dec : forall a b : OrderStatus, {a = b} + {a <> b}.
Proof. decide equality. Defined.
Definition OrderDirection_eq_dec : forall a b : OrderDirection, {a = b} + {a <> b}.
Proof. decide equality. Defined.
Definition DelistingType_eq_dec : forall a b : DelistingType, {a = b} + {a <> b}.
Proof. decide equality. Defined.

(** The engine's security identifier.  Strike prices are the engine's
    decimals; they are kept as integers counted in 1/10000 of a price unit,
    so that [3200.0] is [strike 3200]. *)
#[local] Unset Elimination Schemes.
Inductive SecurityIdentifier : Type :=
  SID (secType : SecurityType) (ticker : string) (market : string)
      (expiry : datetime) (strikePrice : Z) (optionRight : OptionRight)
      (optionStyle : OptionStyle) (underlying : option SecurityIdentifier).
#[local] Set Elimination Schemes.

Definition strike (units : Z) : Z := units * 10000.

Definition StrikePrice (i : SecurityIdentifier) : Z :=
  match i with SID _ _ _ _ k _ _ _ => k end.
Definition OptionRightOf (i : SecurityIdentifier) : OptionRight :=
  match i with SID _ _ _ _ _ r _ _ => r end.

Record Symbol : Type := mkSymbol { ID : SecurityIdentifier }.

Definition SecurityIdentifier_eq_dec :
  forall a b : SecurityIdentifier, {a = b} + {a <> b}.
Proof.
  fix IH 1.
  intros [t1 k1 m1 d1 s1 r1 y1 u1] [t2 k2 m2 d2 s2 r2 y2 u2].
  destruct (string_dec k1 k2); [subst | right; congruence].
  destruct (string_dec m1 m2); [subst | right; congruence].
  destruct (datetime_eq_dec d1 d2); [subst | right; congruence].
  destruct (Z.eq_dec s1 s2); [subst | right; congruence].
  destruct (OptionRight_eq_dec r1 r2); [subst | right; congruence].
  assert (Ht : {t1 = t2} + {t1 <> t2}) by decide equality.
  destruct Ht; [subst | right; congruence].
  assert (Hy : {y1 = y2} + {y1 <> y2}) by decide equality.
  destruct Hy; [subst | right; congruence].
  destruct u1 as [a|], u2 as [b|]; try (right; congruence).
  - destruct (IH a b); [subst; left; reflexivity | right; congruence].
  - left; reflexivity.
Defined.

Definition Symbol_eq_dec : forall a b : Symbol, {a = b} + {a <> b}.
Proof. decide equality; apply SecurityIdentifier_eq_dec. Defined.

(** [a == b] and [a != b] on symbols. *)
Definition Symbol_eqb (a b : Symbol) : bool :=
  if Symbol_eq_dec a b then true else false.

(** Engine constants the script names. *)
Module Market.
Definition CME : string := "cme".
Definition USA : string := "usa".
End Market.

Module Futures.
Module Indices.
Definition SP500EMini : string := "ES".
End Indices.
End Futures.

(** [Symbol.CreateFuture(ticker, market, expiry)]. *)
Definition CreateFuture (tk mk : string) (exp : datetime) : Symbol :=
  mkSymbol (SID SecFuture tk mk exp 0 Call American None).

(** [Symbol.CreateOption(underlying, market, style, right, strike, expiry)]. *)
Definition CreateOption (u : Symbol) (mk : string) (st : OptionStyle)
    (r : OptionRight) (k : Z) (exp : datetime) : Symbol :=
  match ID u with
  | SID _ tk _ _ _ _ _ _ =>
      mkSymbol (SID SecFutureOption tk mk exp k r st (Some (ID u)))
  end.

(** The symbol [AddEquity(ticker, ...)] registers. *)
Definition CreateEquity (tk : string) : Symbol :=
  mkSymbol (SID SecEquity tk Market.USA (date 1998 1 2) 0 Call American None).

(** A registered security: its symbol and [Holdings.Quantity]. *)
Record Security : Type := mkSecurity {
  SecSymbol : Symbol;
  HoldingsQuantity : Q }.

Record OrderEvent : Type := mkOrderEvent {
  OESymbol : Symbol;
  Status : OrderStatus;
  Direction : OrderDirection;
  IsAssignment : bool }.

Record Delisting : Type := mkDelisting {
  DSymbol : Symbol;
  DType : DelistingType;
  DTime : datetime }.

(** A data slice; only [data.Delistings] is read.  The dictionary is kept
    as its association list, [Values] being the second components. *)
Record Slice : Type := mkSlice {
  Delistings : list (Symbol * Delisting) }.

Definition Values (A B : Type) (d : list (A * B)) : list B := map snd d.

(** ** Exceptions and effects *)

(** The messages of the script's [AssertionError]s, one constructor per
    [raise] statement, carrying the value the f-string formats. *)
Inductive Message :=
| ContractNotFound (expected : Symbol)
| DelistingWarningUnexpectedDate (t : datetime)
| DelistingUnexpectedDate (t : datetime)
| SymbolNotInSecurities (s : Symbol)
| NoOrderEventsForUnderlying (s : Symbol)
| NoHoldingsCreated (s : Symbol)
| NoHoldingsAfterClosing
| AssignmentNotExpected (s : Symbol)
| UnknownSymbol (s : Symbol)
| StillInvested (keys : list SecurityIdentifier).

Inductive Exception :=
| AssertionError (m : Message)
| IndexError
| AttributeError (name : string).

Inductive Result (A : Type) :=
| Ok (a : A)
| Raise (e : Exception).
Arguments Raise {A} e.

(** The methods the script hands to the scheduler. *)
Inductive Callback := CbScheduledMarketOrder.

Record ScheduledEvent : Type := mkScheduledEvent {
  OnDate : datetime;
  AfterMarketOpenOf : Symbol;
  MinutesAfterOpen : Z;
  Action : Callback }.

Record MarketOrderRequest : Type := mkMarketOrder {
  OrderSymbol : Symbol;
  OrderQuantity : Z }.

Inductive LogEntry :=
| LogText (s : string)
| LogOrderEvent (e : OrderEvent).

(** The attributes the script assigns on [self] ([None]: not yet assigned)
    and the engine state behind [self]. *)
Record World : Type := mkWorld {
  es19h21 : option Symbol;
  esOption : option Symbol;
  expectedContract : option Symbol;
  StartDate : option datetime;
  EndDate : option datetime;
  Securities : list Security;
  OptionChainProvider : Symbol -> datetime -> list Symbol;
  Transactions : list MarketOrderRequest;
  Schedule : list ScheduledEvent;
  LogLines : list LogEntry }.

Definition M (A : Type) : Type := World -> Result A * World.

Definition ret {A} (a : A) : M A := fun w => (Ok a, w).
Definition raise {A} (e : Exception) : M A := fun w => (Raise e, w).
Definition bind {A B} (m : M A) (k : A -> M B) : M B :=
  fun w => match m w with
           | (Ok a, w') => k a w'
           | (Raise e, w') => (Raise e, w')
           end.
Definition gets {A} (f : World -> A) : M A := fun w => (Ok (f w), w).
Definition modify (f : World -> World) : M unit := fun w => (Ok tt, f w).

Declare Scope py_scope.
Delimit Scope py_scope with py.
Notation "x <- m ;; k" := (bind m (fun x => k))
  (at level 61, m at next level, right associativity) : py_scope.
Notation "m ;; k" := (bind m (fun _ => k))
  (at level 61, right associativity) : py_scope.
Local Open Scope py_scope.

(** Reading [self.name]: an [AttributeError] before the first assignment. *)
Definition attr (name : string) (f : World -> option Symbol) : M Symbol :=
  fun w => match f w with
           | Some s => (Ok s, w)
           | None => (Raise (AttributeError name), w)
           end.

Definition set_es19h21 (s : Symbol) : M unit :=
  modify (fun w => mkWorld (Some s) (esOption w) (expectedContract w)
    (StartDate w) (EndDate w) (Securities w) (OptionChainProvider w)
    (Transactions w) (Schedule w) (LogLines w)).
Definition set_esOption (s : Symbol) : M unit :=
  modify (fun w => mkWorld (es19h21 w) (Some s) (expectedContract w)
    (StartDate w) (EndDate w) (Securities w) (OptionChainProvider w)
    (Transactions w) (Schedule w) (LogLines w)).
Definition set_expectedContract (s : Symbol) : M unit :=
  modify (fun w => mkWorld (es19h21 w) (esOption w) (Some s)
    (StartDate w) (EndDate w) (Securities w) (OptionChainProvider w)
    (Transactions w) (Schedule w) (LogLines w)).

(** ** Engine services

    Modelled from the spec: the engine ([QCAlgorithm] and its providers) is
    outside the script, a "black-box collaborator" reached through [self].
    Its services are modelled by what the script relies on: registering a security returns the security
    stored under the requested symbol, logging and order submission append
    to a journal, and the portfolio summarises the holdings. *)

Definition SetStartDate (y m d : Z) : M unit :=
  modify (fun w => mkWorld (es19h21 w) (esOption w) (expectedContract w)
    (Some (date y m d)) (EndDate w) (Securities w) (OptionChainProvider w)
    (Transactions w) (Schedule w) (LogLines w)).

(** [clr.GetClrType(QCAlgorithm).GetField("_endDate", ...).SetValue(self, d)]:
    the reflective write of the private end date. *)
Definition SetEndDateField (d : datetime) : M unit :=
  modify (fun w => mkWorld (es19h21 w) (esOption w) (expectedContract w)
    (StartDate w) (Some d) (Securities w) (OptionChainProvider w)
    (Transactions w) (Schedule w) (LogLines w)).

Definition Log (e : LogEntry) : M unit :=
  modify (fun w => mkWorld (es19h21 w) (esOption w) (expectedContract w)
    (StartDate w) (EndDate w) (Securities w) (OptionChainProvider w)
    (Transactions w) (Schedule w) (LogLines w ++ [e])).

(** [self.Securities[s]], [None] where the engine raises for a missing key;
    [self.Securities.ContainsKey(s)]. *)
Fixpoint lookup (s : Symbol) (l : list Security) : option Security :=
  match l with
  | [] => None
  | x :: t => if Symbol_eqb (SecSymbol x) s then Some x else lookup s t
  end.

Definition ContainsKey (s : Symbol) (l : list Security) : bool :=
  match lookup s l with Some _ => true | None => false end.

(** Registering [s]: the security already stored under [s], or a new one
    with no holdings. *)
Definition AddSecurity (s : Symbol) : M Security :=
  fun w => match lookup s (Securities w) with
           | Some x => (Ok x, w)
           | None =>
               let x := mkSecurity s 0%Q in
               (Ok x, mkWorld (es19h21 w) (esOption w) (expectedContract w)
                  (StartDate w) (EndDate w) (Securities w ++ [x])
                  (OptionChainProvider w) (Transactions w) (Schedule w)
                  (LogLines w))
           end.

Definition AddEquity (tk : string) (r : Resolution) : M Security :=
  AddSecurity (CreateEquity tk).
Definition AddFutureContract (s : Symbol) (r : Resolution) : M Security :=
  AddSecurity s.
Definition AddFutureOptionContract (s : Symbol) (r : Resolution) : M Security :=
  AddSecurity s.

Definition GetOptionContractList (u : Symbol) (t : datetime) : M (list Symbol) :=
  gets (fun w => OptionChainProvider w u t).

(** [self.MarketOrder(symbol, quantity)]: the request joins the submitted
    orders. *)
Definition MarketOrder (s : Symbol) (q : Z) : M unit :=
  modify (fun w => mkWorld (es19h21 w) (esOption w) (expectedContract w)
    (StartDate w) (EndDate w) (Securities w) (OptionChainProvider w)
    (Transactions w ++ [mkMarketOrder s q]) (Schedule w) (LogLines w)).

(** [self.Schedule.On(DateRules.On(y, m, d), TimeRules.AfterMarketOpen(s, n), f)]. *)
Definition ScheduleOn (d : datetime) (s : Symbol) (n : Z) (f : Callback) : M unit :=
  modify (fun w => mkWorld (es19h21 w) (esOption w) (expectedContract w)
    (StartDate w) (EndDate w) (Securities w) (OptionChainProvider w)
    (Transactions w) (Schedule w ++ [mkScheduledEvent d s n f]) (LogLines w)).

(** Modelled from the spec: the portfolio's "aggregate invested flag" and
    "position list" (the engine's [Portfolio.Invested] and [Portfolio.Keys],
    whose code is not part of the script).  A position is open when its
    signed quantity is not zero; the portfolio "reports any open positions"
    exactly when the flag is set, and the list holds the open positions. *)
Definition Invested (x : Security) : bool :=
  negb (Qeq_bool (HoldingsQuantity x) 0).
Definition PortfolioInvested (w : World) : bool :=
  existsb Invested (Securities w).
Definition PortfolioKeys (w : World) : list Symbol :=
  map SecSymbol (filter Invested (Securities w)).

(** ** Python list helpers *)

(** [sorted(l, key=...)]: a stable insertion sort, equal keys keep their
    order of appearance. *)
Fixpoint insert_by (A : Type) (key : A -> Z) (x : A) (l : list A) : list A :=
  match l with
  | [] => [x]
  | y :: t => if key x <=? key y then x :: y :: t else y :: insert_by key x t
  end.

Fixpoint sorted (A : Type) (key : A -> Z) (l : list A) : list A :=
  match l with
  | [] => []
  | x :: t => insert_by key x (sorted key t)
  end.

(** [l[0]]. *)
Definition subscript0 (A : Type) (l : list A) : M A :=
  match l with
  | [] => raise IndexError
  | x :: _ => ret x
  end.

(** ** The algorithm *)

Definition start : datetime := date 2020 9 22.

(** The comprehension's condition on line 63. *)
Definition chain_filter (x : Symbol) : bool :=
  (strike 3200 <=? StrikePrice (ID x))
  && (if OptionRight_eq_dec (OptionRightOf (ID x)) Put then true else false).

Definition Initialize : M unit :=
  SetStartDate 2020 3 1 ;;
  SetEndDateField (date 2021 3 30) ;;
  AddEquity "AAPL" Daily ;;
  fut <- AddFutureContract
           (CreateFuture Futures.Indices.SP500EMini Market.CME (date 2021 3 19))
           Minute ;;
  set_es19h21 (SecSymbol fut) ;;
  Log (LogText "lookup") ;;
  u <- attr "es19h21" es19h21 ;;
  chain <- GetOptionContractList u start ;;
  first <- subscript0
             (sorted (fun x => StrikePrice (ID x)) (filter chain_filter chain)) ;;
  opt <- AddFutureOptionContract first Minute ;;
  set_esOption (SecSymbol opt) ;;
  Log (LogText "Creation") ;;
  u <- attr "es19h21" es19h21 ;;
  set_expectedContract
    (CreateOption u Market.CME American Put (strike 3200) (date 2021 3 19)) ;;
  got <- attr "esOption" esOption ;;
  want <- attr "expectedContract" expectedContract ;;
  (if negb (Symbol_eqb got want)
   then (want <- attr "expectedContract" expectedContract ;;
         raise (AssertionError (ContractNotFound want)))
   else ret tt) ;;
  Log (LogText "Schedule") ;;
  u <- attr "es19h21" es19h21 ;;
  ScheduleOn (date (year start) (month start) (day start)) u 1
             CbScheduledMarketOrder.

Definition ScheduledMarketOrder : M unit :=
  s <- attr "esOption" esOption ;;
  MarketOrder s (-1).

(** The body of the [for] loop of [OnData] for one delisting. *)
Definition check_delisting (d : Delisting) : M unit :=
  (if DelistingType_eq_dec (DType d) Warning
   then if datetime_eq_dec (DTime d) (date 2021 3 19) then ret tt
        else raise (AssertionError (DelistingWarningUnexpectedDate (DTime d)))
   else ret tt) ;;
  (if DelistingType_eq_dec (DType d) Delisted
   then if datetime_eq_dec (DTime d) (date 2021 3 20) then ret tt
        else raise (AssertionError (DelistingUnexpectedDate (DTime d)))
   else ret tt).

Fixpoint for_each (A : Type) (body : A -> M unit) (l : list A) : M unit :=
  match l with
  | [] => ret tt
  | x :: t => body x ;; for_each body t
  end.

Definition OnData (data : Slice) : M unit :=
  for_each check_delisting (Values (Delistings data)).

Definition AssertFutureOptionContractOrder (orderEvent : OrderEvent)
    (optionContract : Security) : M unit :=
  (if (if OrderDirection_eq_dec (Direction orderEvent) Sell then true else false)
      && negb (Qeq_bool (HoldingsQuantity optionContract) (-1))
   then raise (AssertionError (NoHoldingsCreated (SecSymbol optionContract)))
   else ret tt) ;;
  (if (if OrderDirection_eq_dec (Direction orderEvent) Buy then true else false)
      && negb (Qeq_bool (HoldingsQuantity optionContract) 0)
   then raise (AssertionError NoHoldingsAfterClosing)
   else ret tt) ;;
  (if IsAssignment orderEvent
   then raise (AssertionError (AssignmentNotExpected (OESymbol orderEvent)))
   else ret tt).

Definition OnOrderEvent (orderEvent : OrderEvent) : M unit :=
  if OrderStatus_eq_dec (Status orderEvent) Filled then
    secs <- gets Securities ;;
    match lookup (OESymbol orderEvent) secs with
    | None =>
        raise (AssertionError (SymbolNotInSecurities (OESymbol orderEvent)))
    | Some security =>
        u <- attr "es19h21" es19h21 ;;
        (if Symbol_eqb (SecSymbol security) u
         then raise (AssertionError (NoOrderEventsForUnderlying (SecSymbol security)))
         else ret tt) ;;
        c <- attr "expectedContract" expectedContract ;;
        (if Symbol_eqb (SecSymbol security) c
         then AssertFutureOptionContractOrder orderEvent security
         else raise (AssertionError (UnknownSymbol (OESymbol orderEvent)))) ;;
        Log (LogOrderEvent orderEvent)
    end
  else ret tt.

Definition OnEndOfAlgorithm : M unit :=
  invested <- gets PortfolioInvested ;;
  if invested
  then keys <- gets PortfolioKeys ;;
       raise (AssertionError (StillInvested (map ID keys)))
  else ret tt.

(** The two identifiers [Initialize] computes. *)
Definition ES19H21 : Symbol :=
  CreateFuture Futures.Indices.SP500EMini Market.CME (date 2021 3 19).
Definition ExpectedContract : Symbol :=
  CreateOption ES19H21 Market.CME American Put (strike 3200) (date 2021 3 19).

Definition StrikeOf (x : Symbol) : Z := StrikePrice (ID x).

(** The candidates of line 61-65: the chain at the query date, filtered and
    sorted. *)
Definition candidates (w : World) : list Symbol :=
  sorted StrikeOf (filter chain_filter (OptionChainProvider w ES19H21 start)).

Definition le_key (A : Type) (key : A -> Z) (a b : A) : Prop := key a <= key b.

(** ** The engine's side of a run

    Modelled from the spec: the engine drives the script ("setup once, then
    scheduled/data/order callbacks interleaved by simulated time, then
    end-of-run once"), the scheduled callback is "one-shot" (a date rule
    naming a single day: when its time is reached the pending entries fire
    and are gone), and the engine books fills and settlements into the
    holdings before it reports them. *)
Inductive HostEvent :=
| EvData (data : Slice)
| EvOrderEvent (orderEvent : OrderEvent)
| EvHoldings (s : Symbol) (q : Q)
| EvScheduleDue
| EvEndOfAlgorithm.

Definition call (c : Callback) : M unit :=
  match c with
  | CbScheduledMarketOrder => ScheduledMarketOrder
  end.

Definition TakeDue : M (list ScheduledEvent) :=
  fun w => (Ok (Schedule w),
            mkWorld (es19h21 w) (esOption w) (expectedContract w)
              (StartDate w) (EndDate w) (Securities w) (OptionChainProvider w)
              (Transactions w) [] (LogLines w)).

Definition SetHoldings (s : Symbol) (q : Q) : M unit :=
  modify (fun w => mkWorld (es19h21 w) (esOption w) (expectedContract w)
    (StartDate w) (EndDate w)
    (map (fun x => if Symbol_eqb (SecSymbol x) s then mkSecurity s q else x)
         (Securities w))
    (OptionChainProvider w) (Transactions w) (Schedule w) (LogLines w)).

Definition dispatch (ev : HostEvent) : M unit :=
  match ev with
  | EvData data => OnData data
  | EvOrderEvent e => OnOrderEvent e
  | EvHoldings s q => SetHoldings s q
  | EvScheduleDue => due <- TakeDue ;; for_each (fun e => call (Action e)) due
  | EvEndOfAlgorithm => OnEndOfAlgorithm
  end.

Definition backtest (evs : list HostEvent) : M unit :=
  Initialize ;; for_each dispatch evs.

(** What two runs are compared on: the attributes of [self] and the engine
    state the callbacks read or write.  The log and the configured dates are
    written but never read. *)
Record Observed : Type := mkObserved {
  obs_es19h21 : option Symbol;
  obs_esOption : option Symbol;
  obs_expectedContract : option Symbol;
  obs_Securities : list Security;
  obs_Transactions : list MarketOrderRequest;
  obs_Schedule : list ScheduledEvent }.

Definition observe (w : World) : Observed :=
  mkObserved (es19h21 w) (esOption w) (expectedContract w)
             (Securities w) (Transactions w) (Schedule w).

Definition same_inputs (w1 w2 : World) : Prop :=
  observe w1 = observe w2 /\ OptionChainProvider w1 = OptionChainProvider w2.

Definition attributes (w : World) : option Symbol * option Symbol * option Symbol :=
  (es19h21 w, esOption w, expectedContract w).

(** A fresh algorithm instance on an engine with the given option chain. *)
Definition fresh (chain : Symbol -> datetime -> list Symbol) : World :=
  mkWorld None None None None None [] chain [] [] [].

(** The security [AddSecurity s] answers with, and the collection it
    leaves. *)
Definition registered (s : Symbol) (l : list Security) : Security :=
  match lookup s l with Some x => x | None => mkSecurity s 0%Q end.
Definition register (s : Symbol) (l : list Security) : list Security :=
  match lookup s l with Some _ => l | None => l ++ [mkSecurity s 0%Q] end.

(** The securities registered before the chain is queried. *)
Definition setup_securities (w : World) : list Security :=
  register ES19H21 (register (CreateEquity "AAPL") (Securities w)).

(** Sample contracts and a sample chain: what the provider answers for the
    future at the query date, in the provider's order. *)
Definition put_at (k : Z) : Symbol :=
  CreateOption ES19H21 Market.CME American Put (strike k) (date 2021 3 19).
Definition call_at (k : Z) : Symbol :=
  CreateOption ES19H21 Market.CME American Call (strike k) (date 2021 3 19).

Definition sample_chain (u : Symbol) (t : datetime) : list Symbol :=
  if Symbol_eqb u ES19H21 then
    if datetime_eq_dec t start
    then [call_at 3200; put_at 3300; put_at 3200; put_at 3100; put_at 3250]
    else []
  else [].

Definition low_chain (u : Symbol) (t : datetime) : list Symbol :=
  [call_at 3200; put_at 3100; call_at 3300; put_at 3150].

Definition off_chain (u : Symbol) (t : datetime) : list Symbol :=
  [put_at 3300; put_at 3250].

(** Sample order events and securities. *)
Definition sell_fill : OrderEvent := mkOrderEvent ExpectedContract Filled Sell false.
Definition buy_fill : OrderEvent := mkOrderEvent ExpectedContract Filled Buy false.
Definition assigned_fill : OrderEvent := mkOrderEvent ExpectedContract Filled Sell true.
Definition short_one : Security := mkSecurity ExpectedContract (-1)%Q.
Definition flat : Security := mkSecurity ExpectedContract 0%Q.

(** Sample delistings and slices. *)
Definition AAPL : Symbol := CreateEquity "AAPL".
Definition warning_on_expiry : Delisting :=
  mkDelisting ExpectedContract Warning (date 2021 3 19).
Definition delisted_next_day : Delisting :=
  mkDelisting ExpectedContract Delisted (date 2021 3 20).
Definition late_warning : Delisting :=
  mkDelisting ExpectedContract Warning (date 2021 3 20).
Definition early_delisted : Delisting :=
  mkDelisting ExpectedContract Delisted (date 2021 3 19).
Definition equity_warning : Delisting :=
  mkDelisting AAPL Warning (date 2021 6 1).
Definition equity_delisted : Delisting :=
  mkDelisting AAPL Delisted (date 2021 6 2).

Definition slice_of (l : list Delisting) : Slice :=
  mkSlice (map (fun d => (DSymbol d, d)) l).

(** What the loop of [OnData] reads of a delisting. *)
Definition type_and_time (d : Delisting) : DelistingType * datetime :=
  (DType d, DTime d).

(** Sample engine states after setup: flat, and still short one contract. *)
Definition world_with (secs : list Security) : World :=
  mkWorld (Some ES19H21) (Some ExpectedContract) (Some ExpectedContract)
    None None secs sample_chain [] [] [].
Definition flat_book : list Security :=
  [mkSecurity AAPL 0%Q; mkSecurity ES19H21 0%Q; flat].
Definition short_book : list Security :=
  [mkSecurity AAPL 0%Q; mkSecurity ES19H21 0%Q; short_one].

(** The one schedule entry and the one order of the scenario. *)
Definition the_entry : ScheduledEvent :=
  mkScheduledEvent (date 2020 9 22) ES19H21 1 CbScheduledMarketOrder.
Definition the_order : MarketOrderRequest :=
  mkMarketOrder ExpectedContract (-1).

(** Where a run stands after a successful setup: the entry is pending and
    nothing was ordered, or the entry has fired and its order is the only
    one. *)
Definition pending (w : World) : Prop :=
  Schedule w = [the_entry] /\ Transactions w = [].
Definition fired (w : World) : Prop :=
  Schedule w = [] /\ Transactions w = [the_order].
Definition set_up (w : World) : Prop :=
  esOption w = Some ExpectedContract /\ (pending w \/ fired w).

(** What the scheduling and ordering side of a callback can touch. *)
Definition orders_view (w : World)
  : option Symbol * list ScheduledEvent * list MarketOrderRequest :=
  (esOption w, Schedule w, Transactions w).

(** The scenario as the engine plays it: the scheduled sell, its fill, the
    delisting warning at expiry, the settlement of the worthless option, the
    final delisting, the end of the run. *)
Definition scenario : list HostEvent :=
  [ EvData (slice_of []);
    EvScheduleDue;
    EvHoldings ExpectedContract (-1)%Q;
    EvOrderEvent sell_fill;
    EvData (slice_of [warning_on_expiry]);
    EvHoldings ExpectedContract 0%Q;
    EvOrderEvent buy_fill;
    EvData (slice_of [delisted_next_day]);
    EvScheduleDue;
    EvEndOfAlgorithm ].

(** A second engine state for the sample chain: other dates and an older
    log, the same inputs. *)
Definition relogged : World :=
  mkWorld None None None (Some (date 2019 1 1)) (Some (date 2019 12 31)) []
    sample_chain [] [] [LogText "previous run"].

Definition raises_assertion (A : Type) (r : Result A) : Prop :=
  exists m, r = Raise (AssertionError m).

(** The timestamp a delisting of each type has to carry. *)
Definition timestamp_ok (d : Delisting) : Prop :=
  (DType d = Warning -> DTime d = date 2021 3 19) /\
  (DType d = Delisted -> DTime d = date 2021 3 20).

(** A computation leaves a component of the state as it found it. *)
Definition frame (X A : Type) (proj : World -> X) (m : M A) : Prop :=
  forall w, proj (snd (m w)) = proj w.

(** A computation cannot tell apart two states with the same inputs, and
    keeps them so. *)
Definition respects (A : Type) (m : M A) : Prop :=
  forall w1 w2, same_inputs w1 w2 ->
    fst (m w1) = fst (m w2) /\ same_inputs (snd (m w1)) (snd (m w2)).

(** ** Further vocabulary for the properties of the callbacks *)

(** A chain entry the comprehension keeps. *)
Definition qualifies (x : Symbol) : Prop :=
  strike 3200 <= StrikeOf x /\ OptionRightOf (ID x) = Put.

(** The [AssertionError] one delisting raises when its time is wrong. *)
Definition delisting_message (d : Delisting) : Message :=
  match DType d with
  | Warning => DelistingWarningUnexpectedDate (DTime d)
  | Delisted => DelistingUnexpectedDate (DTime d)
  end.

(** A put on the same future, struck at 3200.0 as well, with a later
    expiry; chains that list it before, and after, the expected contract. *)
Definition june_put : Symbol :=
  CreateOption ES19H21 Market.CME American Put (strike 3200) (date 2021 6 18).
Definition tied_chain (u : Symbol) (t : datetime) : list Symbol :=
  [put_at 3300; june_put; call_at 3100; put_at 3200].
Definition untied_chain (u : Symbol) (t : datetime) : list Symbol :=
  [put_at 3300; call_at 3200; put_at 3200; put_at 3100; put_at 3250].

(** A provider that answers like [sample_chain] for the future at the query
    date only. *)
Definition elsewhere_chain (u : Symbol) (t : datetime) : list Symbol :=
  if Symbol_eqb u ES19H21 then
    if datetime_eq_dec t start then sample_chain u t else [june_put]
  else [call_at 3200; june_put].

(** An instance whose setup has not run, on an engine that already holds
    the three securities. *)
Definition before_setup : World :=
  mkWorld None None None None None short_book sample_chain [] [] [].
(** An instance with the underlying assigned and nothing else. *)
Definition half_setup : World :=
  mkWorld (Some ES19H21) None None None None short_book sample_chain [] [] [].

(** The three attributes have been assigned. *)
Definition assigned (w : World) : Prop :=
  exists u o c, attributes w = (Some u, Some o, Some c).

(** A result that is not an exception, or is an [AssertionError]. *)
Definition ok_or_assertion (r : Result unit) : Prop :=
  r = Ok tt \/ raises_assertion r.

(** * Properties *)

Lemma Symbol_eqb_eq : forall a b, Symbol_eqb a b = true <-> a = b.
Proof.
  intros a b; unfold Symbol_eqb; destruct (Symbol_eq_dec a b); split;
    congruence.
Qed.

Lemma Symbol_eqb_refl : forall a, Symbol_eqb a a = true.
Proof. intro a; apply Symbol_eqb_eq; reflexivity. Qed.

Lemma Symbol_eqb_neq : forall a b, Symbol_eqb a b = false <-> a <> b.
Proof.
  intros a b; unfold Symbol_eqb; destruct (Symbol_eq_dec a b); split;
    congruence.
Qed.

(** ** Sorting *)

Section Sorting.
Variable A : Type.
Variable key : A -> Z.

Local Abbreviation le_key := (@le_key A key).

Lemma insert_by_perm : forall x l, Permutation (x :: l) (insert_by key x l).
Proof.
  intros x l; induction l as [|y t IH]; simpl.
  - apply Permutation_refl.
  - destruct (key x <=? key y).
    + apply Permutation_refl.
    + eapply perm_trans; [apply perm_swap|].
      apply perm_skip; exact IH.
Qed.

Lemma sorted_perm : forall l, Permutation l (sorted key l).
Proof.
  induction l as [|x t IH]; simpl.
  - apply perm_nil.
  - eapply perm_trans; [apply perm_skip; exact IH|].
    apply insert_by_perm.
Qed.

Lemma insert_by_hdrel : forall x a l,
  le_key a x -> HdRel le_key a l -> HdRel le_key a (insert_by key x l).
Proof.
  intros x a l Hax Hl; destruct l as [|y t]; simpl.
  - constructor; exact Hax.
  - destruct (key x <=? key y); constructor.
    + exact Hax.
    + inversion Hl; assumption.
Qed.

Lemma insert_by_sorted : forall x l,
  Sorted le_key l -> Sorted le_key (insert_by key x l).
Proof.
  intros x l; induction l as [|y t IH]; intro Hs; simpl.
  - repeat constructor.
  - destruct (key x <=? key y) eqn:E.
    + constructor; [exact Hs|]. constructor. apply Z.leb_le; exact E.
    + inversion Hs as [|? ? Ht Hhd]; subst.
      constructor; [apply IH; exact Ht|].
      apply insert_by_hdrel; [|exact Hhd].
      apply Z.leb_gt in E. unfold le_key. lia.
Qed.

Lemma sorted_Sorted : forall l, Sorted le_key (sorted key l).
Proof.
  induction l as [|x t IH]; simpl.
  - constructor.
  - apply insert_by_sorted; exact IH.
Qed.

Lemma sorted_In : forall x l, In x (sorted key l) <-> In x l.
Proof.
  intros x l; split; intro H.
  - eapply Permutation_in; [apply Permutation_sym, sorted_perm | exact H].
  - eapply Permutation_in; [apply sorted_perm | exact H].
Qed.

Lemma sorted_nil : forall l, sorted key l = [] -> l = [].
Proof.
  intros l H. apply Permutation_nil.
  rewrite <- H. apply Permutation_sym, sorted_perm.
Qed.

Lemma sorted_head_least : forall l c r,
  sorted key l = c :: r -> In c l /\ forall y, In y l -> key c <= key y.
Proof.
  intros l c r H; split.
  - apply sorted_In. rewrite H. left; reflexivity.
  - intros y Hy. apply sorted_In in Hy. rewrite H in Hy.
    destruct Hy as [->|Hy]; [lia|].
    pose proof (sorted_Sorted l) as Hs. rewrite H in Hs.
    apply Sorted_StronglySorted in Hs.
    + inversion Hs as [|? ? _ Hall]; subst.
      rewrite Forall_forall in Hall. apply Hall; exact Hy.
    + intros a b c' Hab Hbc. unfold le_key in *. lia.
Qed.
End Sorting.

(** ** The monad *)

Lemma bind_ok : forall A B (m : M A) (k : A -> M B) w a w',
  m w = (Ok a, w') -> bind m k w = k a w'.
Proof. intros A B m k w a w' H; unfold bind; rewrite H; reflexivity. Qed.

Lemma bind_raise : forall A B (m : M A) (k : A -> M B) w e w',
  m w = (Raise e, w') -> bind m k w = (Raise e, w').
Proof. intros A B m k w e w' H; unfold bind; rewrite H; reflexivity. Qed.

Section Frame.
Variable X : Type.
Variable proj : World -> X.

Lemma frame_ret : forall A (a : A), frame proj (ret a).
Proof. intros A a w; reflexivity. Qed.

Lemma frame_raise : forall A e, frame proj (@raise A e).
Proof. intros A e w; reflexivity. Qed.

Lemma frame_gets : forall A (f : World -> A), frame proj (gets f).
Proof. intros A f w; reflexivity. Qed.

Lemma frame_attr : forall n f, frame proj (attr n f).
Proof. intros n f w; unfold attr; destruct (f w); reflexivity. Qed.

Lemma frame_bind : forall A B (m : M A) (k : A -> M B),
  frame proj m -> (forall a, frame proj (k a)) -> frame proj (bind m k).
Proof.
  intros A B m k Hm Hk w. unfold bind.
  specialize (Hm w). destruct (m w) as [[a|e] w']; simpl in *.
  - rewrite Hk. exact Hm.
  - exact Hm.
Qed.

Lemma frame_if : forall A (b : bool) (m1 m2 : M A),
  frame proj m1 -> frame proj m2 -> frame proj (if b then m1 else m2).
Proof. intros A b m1 m2 H1 H2; destruct b; assumption. Qed.

Lemma frame_sumbool : forall A (P Q : Prop) (b : {P} + {Q}) (m1 m2 : M A),
  frame proj m1 -> frame proj m2 -> frame proj (if b then m1 else m2).
Proof. intros A P Q b m1 m2 H1 H2; destruct b; assumption. Qed.

Lemma frame_for_each : forall A (body : A -> M unit) l,
  (forall a, frame proj (body a)) -> frame proj (for_each body l).
Proof.
  intros A body l Hb; induction l as [|x t IH]; simpl.
  - apply frame_ret.
  - apply frame_bind; [apply Hb | intros _; exact IH].
Qed.
End Frame.

Create HintDb frame.
#[local] Hint Resolve frame_ret frame_raise frame_gets frame_attr frame_bind
  frame_if frame_sumbool frame_for_each : frame.

(** ** The engine services *)

Lemma lookup_symbol : forall s l x, lookup s l = Some x -> SecSymbol x = s.
Proof.
  intros s l x; induction l as [|y t IH]; simpl; [discriminate|].
  destruct (Symbol_eqb (SecSymbol y) s) eqn:E.
  - intros [= <-]. apply Symbol_eqb_eq; exact E.
  - exact IH.
Qed.

Lemma registered_symbol : forall s l, SecSymbol (registered s l) = s.
Proof.
  intros s l; unfold registered; destruct (lookup s l) eqn:E.
  - eapply lookup_symbol; exact E.
  - reflexivity.
Qed.

Lemma AddSecurity_eq : forall s w,
  AddSecurity s w =
  (Ok (registered s (Securities w)),
   mkWorld (es19h21 w) (esOption w) (expectedContract w) (StartDate w)
     (EndDate w) (register s (Securities w)) (OptionChainProvider w)
     (Transactions w) (Schedule w) (LogLines w)).
Proof.
  intros s w; unfold AddSecurity, registered, register.
  destruct (lookup s (Securities w)); destruct w; reflexivity.
Qed.

(** ** Setup *)

Lemma Initialize_eq : forall w,
  Initialize w =
  match candidates w with
  | [] =>
      (Raise IndexError,
       mkWorld (Some ES19H21) (esOption w) (expectedContract w)
         (Some (date 2020 3 1)) (Some (date 2021 3 30)) (setup_securities w)
         (OptionChainProvider w) (Transactions w) (Schedule w)
         (LogLines w ++ [LogText "lookup"]))
  | first :: _ =>
      if Symbol_eqb first ExpectedContract
      then (Ok tt,
            mkWorld (Some ES19H21) (Some first) (Some ExpectedContract)
              (Some (date 2020 3 1)) (Some (date 2021 3 30))
              (register first (setup_securities w))
              (OptionChainProvider w) (Transactions w)
              (Schedule w ++
                 [mkScheduledEvent (date 2020 9 22) ES19H21 1
                    CbScheduledMarketOrder])
              (((LogLines w ++ [LogText "lookup"]) ++ [LogText "Creation"])
                 ++ [LogText "Schedule"]))
      else (Raise (AssertionError (ContractNotFound ExpectedContract)),
            mkWorld (Some ES19H21) (Some first) (Some ExpectedContract)
              (Some (date 2020 3 1)) (Some (date 2021 3 30))
              (register first (setup_securities w))
              (OptionChainProvider w) (Transactions w) (Schedule w)
              ((LogLines w ++ [LogText "lookup"]) ++ [LogText "Creation"]))
  end.
Proof.
  intro w. unfold Initialize, AddEquity, AddFutureContract,
    AddFutureOptionContract.
  unfold bind at 1; simpl.
  unfold bind at 1; simpl.
  unfold bind at 1; rewrite AddSecurity_eq; simpl.
  unfold bind at 1; rewrite AddSecurity_eq; simpl.
  rewrite registered_symbol.
  unfold bind at 1; simpl.
  unfold bind at 1; simpl.
  unfold bind at 1; simpl.
  unfold bind at 1; simpl.
  fold ES19H21. unfold candidates, setup_securities.
  destruct (sorted _ _) as [|first rest]; simpl; [reflexivity|].
  unfold bind at 1; simpl.
  unfold bind at 1; rewrite AddSecurity_eq; simpl.
  rewrite registered_symbol.
  unfold bind; simpl.
  match goal with
  | |- context [Symbol_eqb first ?c] => change c with ExpectedContract
  end.
  destruct (Symbol_eqb first ExpectedContract); reflexivity.
Qed.

Lemma chain_filter_spec : forall x,
  chain_filter x = true <->
  strike 3200 <= StrikeOf x /\ OptionRightOf (ID x) = Put.
Proof.
  intro x; unfold chain_filter, StrikeOf.
  rewrite andb_true_iff, Z.leb_le.
  destruct (OptionRight_eq_dec (OptionRightOf (ID x)) Put); intuition congruence.
Qed.

Lemma candidates_In : forall w x,
  In x (candidates w) <->
  In x (OptionChainProvider w ES19H21 start) /\
  strike 3200 <= StrikeOf x /\ OptionRightOf (ID x) = Put.
Proof.
  intros w x; unfold candidates.
  rewrite sorted_In, filter_In, chain_filter_spec. reflexivity.
Qed.

Lemma Initialize_result : forall w,
  fst (Initialize w) =
  match candidates w with
  | [] => Raise IndexError
  | first :: _ =>
      if Symbol_eq_dec first ExpectedContract then Ok tt
      else Raise (AssertionError (ContractNotFound ExpectedContract))
  end.
Proof.
  intro w; rewrite Initialize_eq.
  destruct (candidates w) as [|first rest]; [reflexivity|].
  unfold Symbol_eqb; destruct (Symbol_eq_dec first ExpectedContract);
    reflexivity.
Qed.

(** C1.  [Initialize] keeps of the chain at the query date the puts struck at
    3200.0 or above, sorts them by ascending strike and takes the first, a
    contract of least strike among them; it stores that contract's symbol in
    [esOption] and raises the contract-identity [AssertionError] unless the
    symbol is the expected identifier, the American put on the future struck
    at 3200.0 and expiring 2021-03-19. *)
Theorem Initialize_selects_expected_contract : forall w,
  let chain := OptionChainProvider w ES19H21 start in
  Permutation (filter chain_filter chain) (candidates w) /\
  Sorted (le_key StrikeOf) (candidates w) /\
  (forall x, In x (candidates w) <->
     In x chain /\ strike 3200 <= StrikeOf x /\ OptionRightOf (ID x) = Put) /\
  (forall first rest, candidates w = first :: rest ->
     (forall y, In y chain -> strike 3200 <= StrikeOf y ->
        OptionRightOf (ID y) = Put -> StrikeOf first <= StrikeOf y) /\
     esOption (snd (Initialize w)) = Some first /\
     (first = ExpectedContract -> fst (Initialize w) = Ok tt) /\
     (first <> ExpectedContract ->
      fst (Initialize w) =
      Raise (AssertionError (ContractNotFound ExpectedContract)))) /\
  ExpectedContract =
    mkSymbol (SID SecFutureOption "ES" "cme" (date 2021 3 19) (strike 3200)
                Put American (Some (ID ES19H21))).
Proof.
  intros w chain.
  split; [apply sorted_perm|].
  split; [apply sorted_Sorted|].
  split; [apply candidates_In|].
  split; [|reflexivity].
  intros first rest H.
  split; [|split; [|split]].
  - intros y Hy Hk Hr.
    destruct (sorted_head_least StrikeOf _ H) as [_ Hleast].
    apply Hleast. apply filter_In. split; [exact Hy|].
    apply chain_filter_spec; split; assumption.
  - rewrite Initialize_eq, H.
    destruct (Symbol_eqb first ExpectedContract); reflexivity.
  - intros ->. rewrite Initialize_result, H.
    destruct (Symbol_eq_dec ExpectedContract ExpectedContract); congruence.
  - intro Hne. rewrite Initialize_result, H.
    destruct (Symbol_eq_dec first ExpectedContract); congruence.
Qed.

Lemma Initialize_selects_expected_contract_witness :
  candidates (fresh sample_chain) = [put_at 3200; put_at 3250; put_at 3300] /\
  fst (Initialize (fresh sample_chain)) = Ok tt /\
  esOption (snd (Initialize (fresh sample_chain))) = Some ExpectedContract.
Proof.
  assert (Hc : candidates (fresh sample_chain)
               = [put_at 3200; put_at 3250; put_at 3300])
    by (vm_compute; reflexivity).
  destruct (Initialize_selects_expected_contract (fresh sample_chain))
    as (_ & _ & _ & Hsel & _).
  destruct (Hsel _ _ Hc) as (_ & Hopt & Hok & _).
  split; [exact Hc|]. split.
  - apply Hok. reflexivity.
  - exact Hopt.
Defined.

(** C10.  When no contract of the chain is a put struck at 3200.0 or above,
    [Initialize] fails with the [IndexError] of the subscript [[0]] on the
    empty list; the contract-identity [AssertionError] is reached only with
    a non-empty filtered list. *)
Theorem Initialize_empty_chain_IndexError : forall w,
  let chain := OptionChainProvider w ES19H21 start in
  ((forall x, In x chain ->
      ~ (OptionRightOf (ID x) = Put /\ strike 3200 <= StrikeOf x)) ->
   filter chain_filter chain = [] /\
   fst (Initialize w) = Raise IndexError /\
   esOption (snd (Initialize w)) = esOption w) /\
  (forall m, fst (Initialize w) = Raise (AssertionError m) ->
     filter chain_filter chain <> [] /\
     m = ContractNotFound ExpectedContract).
Proof.
  intros w chain; split.
  - intro Hnone.
    assert (Hf : filter chain_filter chain = []).
    { destruct (filter chain_filter chain) as [|x t] eqn:E; [reflexivity|].
      assert (Hx : In x (filter chain_filter chain)) by (rewrite E; left; reflexivity).
      apply filter_In in Hx. destruct Hx as [Hin Hp].
      apply chain_filter_spec in Hp. exfalso.
      apply (Hnone x Hin). tauto. }
    split; [exact Hf|].
    rewrite Initialize_eq. unfold candidates. fold chain. rewrite Hf.
    simpl. split; reflexivity.
  - intros m Hm. rewrite Initialize_result in Hm.
    destruct (candidates w) as [|first rest] eqn:E; [discriminate|].
    split.
    + intro Hf. unfold candidates in E. fold chain in E. rewrite Hf in E.
      discriminate.
    + destruct (Symbol_eq_dec first ExpectedContract); congruence.
Qed.

Lemma Initialize_empty_chain_IndexError_witness :
  fst (Initialize (fresh low_chain)) = Raise IndexError /\
  (fst (Initialize (fresh off_chain)) =
     Raise (AssertionError (ContractNotFound ExpectedContract)) /\
   filter chain_filter (off_chain ES19H21 start) <> []).
Proof.
  destruct (Initialize_empty_chain_IndexError (fresh low_chain)) as [H1 _].
  destruct (Initialize_empty_chain_IndexError (fresh off_chain)) as [_ H2].
  split.
  - apply H1. intros x Hx [Hr Hk].
    simpl in Hx. unfold low_chain in Hx. simpl in Hx.
    destruct Hx as [<-|[<-|[<-|[<-|[]]]]];
      solve [discriminate Hr | vm_compute in Hk; apply Hk; reflexivity].
  - assert (Hr : fst (Initialize (fresh off_chain)) =
                 Raise (AssertionError (ContractNotFound ExpectedContract)))
      by (vm_compute; reflexivity).
    split; [exact Hr|]. apply (H2 _ Hr).
Defined.

(** ** Order events *)

Lemma AssertFutureOptionContractOrder_eq : forall e sec w,
  AssertFutureOptionContractOrder e sec w =
  (if (if OrderDirection_eq_dec (Direction e) Sell then true else false)
      && negb (Qeq_bool (HoldingsQuantity sec) (-1))
   then Raise (AssertionError (NoHoldingsCreated (SecSymbol sec)))
   else if (if OrderDirection_eq_dec (Direction e) Buy then true else false)
           && negb (Qeq_bool (HoldingsQuantity sec) 0)
   then Raise (AssertionError NoHoldingsAfterClosing)
   else if IsAssignment e
   then Raise (AssertionError (AssignmentNotExpected (OESymbol e)))
   else Ok tt, w).
Proof.
  intros e sec w. unfold AssertFutureOptionContractOrder, bind.
  destruct (_ && _); [reflexivity|].
  destruct (_ && _); [reflexivity|].
  destruct (IsAssignment e); reflexivity.
Qed.

(** C2.  [AssertFutureOptionContractOrder] raises an [AssertionError] when
    the event is a sell and the contract's holdings quantity is not -1, when
    the event is a buy and the quantity is not 0, and when the event carries
    the assignment flag; in every other case it raises nothing.  It changes
    no state. *)
Theorem AssertFutureOptionContractOrder_checks : forall e sec w,
  let r := AssertFutureOptionContractOrder e sec w in
  snd r = w /\
  (Direction e = Sell -> ~ (HoldingsQuantity sec == -1)%Q ->
   fst r = Raise (AssertionError (NoHoldingsCreated (SecSymbol sec)))) /\
  (Direction e = Buy -> ~ (HoldingsQuantity sec == 0)%Q ->
   fst r = Raise (AssertionError NoHoldingsAfterClosing)) /\
  (IsAssignment e = true -> raises_assertion (fst r)) /\
  ((Direction e = Sell -> (HoldingsQuantity sec == -1)%Q) ->
   (Direction e = Buy -> (HoldingsQuantity sec == 0)%Q) ->
   IsAssignment e = false -> fst r = Ok tt).
Proof.
  intros e sec w r. subst r. rewrite AssertFutureOptionContractOrder_eq.
  simpl.
  split; [reflexivity|].
  split; [|split; [|split]].
  - intros Hd Hq.
    destruct (OrderDirection_eq_dec (Direction e) Sell); [|contradiction].
    destruct (Qeq_bool (HoldingsQuantity sec) (-1)) eqn:E; [|reflexivity].
    apply Qeq_bool_iff in E. contradiction.
  - intros Hd Hq.
    destruct (OrderDirection_eq_dec (Direction e) Sell); [congruence|].
    destruct (OrderDirection_eq_dec (Direction e) Buy); [|contradiction].
    destruct (Qeq_bool (HoldingsQuantity sec) 0) eqn:E; [|reflexivity].
    apply Qeq_bool_iff in E. contradiction.
  - intros ->.
    destruct (_ && _); [eexists; reflexivity|].
    destruct (_ && _); eexists; reflexivity.
  - intros Hs Hb ->.
    destruct (OrderDirection_eq_dec (Direction e) Sell) as [Hd|Hd]; simpl.
    + apply Hs, Qeq_bool_iff in Hd. rewrite Hd. simpl.
      destruct (OrderDirection_eq_dec (Direction e) Buy) as [Hd'|Hd']; simpl;
        [|reflexivity].
      apply Hb, Qeq_bool_iff in Hd'. rewrite Hd'. reflexivity.
    + destruct (OrderDirection_eq_dec (Direction e) Buy) as [Hd'|Hd']; simpl;
        [|reflexivity].
      apply Hb, Qeq_bool_iff in Hd'. rewrite Hd'. reflexivity.
Qed.

Lemma AssertFutureOptionContractOrder_checks_witness :
  fst (AssertFutureOptionContractOrder sell_fill flat (fresh sample_chain))
    = Raise (AssertionError (NoHoldingsCreated ExpectedContract)) /\
  fst (AssertFutureOptionContractOrder buy_fill short_one (fresh sample_chain))
    = Raise (AssertionError NoHoldingsAfterClosing) /\
  raises_assertion
    (fst (AssertFutureOptionContractOrder assigned_fill short_one
            (fresh sample_chain))) /\
  fst (AssertFutureOptionContractOrder sell_fill short_one (fresh sample_chain))
    = Ok tt.
Proof.
  split; [|split; [|split]].
  - apply (AssertFutureOptionContractOrder_checks sell_fill flat
             (fresh sample_chain)); [reflexivity|].
    intro H; vm_compute in H; discriminate H.
  - apply (AssertFutureOptionContractOrder_checks buy_fill short_one
             (fresh sample_chain)); [reflexivity|].
    intro H; vm_compute in H; discriminate H.
  - apply (AssertFutureOptionContractOrder_checks assigned_fill short_one
             (fresh sample_chain)); reflexivity.
  - apply (AssertFutureOptionContractOrder_checks sell_fill short_one
             (fresh sample_chain)).
    + intros _; reflexivity.
    + intro H; discriminate H.
    + reflexivity.
Defined.

(** ** Delistings *)

Lemma check_delisting_eq : forall d w,
  check_delisting d w =
  (match DType d with
   | Warning =>
       if datetime_eq_dec (DTime d) (date 2021 3 19) then Ok tt
       else Raise (AssertionError (DelistingWarningUnexpectedDate (DTime d)))
   | Delisted =>
       if datetime_eq_dec (DTime d) (date 2021 3 20) then Ok tt
       else Raise (AssertionError (DelistingUnexpectedDate (DTime d)))
   end, w).
Proof.
  intros d w; unfold check_delisting, bind.
  destruct (DType d); simpl.
  - destruct (datetime_eq_dec (DTime d) (date 2021 3 19)); reflexivity.
  - destruct (datetime_eq_dec (DTime d) (date 2021 3 20)); reflexivity.
Qed.

Lemma check_delisting_ok : forall d w,
  timestamp_ok d -> check_delisting d w = (Ok tt, w).
Proof.
  intros d w [Hw Hd]; rewrite check_delisting_eq.
  destruct (DType d).
  - destruct (datetime_eq_dec (DTime d) (date 2021 3 19)) as [|n];
      [reflexivity | exfalso; apply n, Hw; reflexivity].
  - destruct (datetime_eq_dec (DTime d) (date 2021 3 20)) as [|n];
      [reflexivity | exfalso; apply n, Hd; reflexivity].
Qed.

Lemma check_delisting_bad : forall d w,
  ~ timestamp_ok d ->
  raises_assertion (fst (check_delisting d w)) /\ snd (check_delisting d w) = w.
Proof.
  intros d w Hbad; rewrite check_delisting_eq; simpl.
  split; [|reflexivity].
  destruct (DType d) eqn:E.
  - destruct (datetime_eq_dec (DTime d) (date 2021 3 19)) as [e|n].
    + exfalso; apply Hbad; split; intro H; [exact e | congruence].
    + eexists; reflexivity.
  - destruct (datetime_eq_dec (DTime d) (date 2021 3 20)) as [e|n].
    + exfalso; apply Hbad; split; intro H; [congruence | exact e].
    + eexists; reflexivity.
Qed.

Lemma timestamp_ok_dec : forall d, {timestamp_ok d} + {~ timestamp_ok d}.
Proof.
  intro d; unfold timestamp_ok. destruct (DType d).
  - destruct (datetime_eq_dec (DTime d) (date 2021 3 19)) as [e|n].
    + left; split; intro; [exact e | discriminate].
    + right; intros [H _]; apply n, H; reflexivity.
  - destruct (datetime_eq_dec (DTime d) (date 2021 3 20)) as [e|n].
    + left; split; intro; [discriminate | exact e].
    + right; intros [_ H]; apply n, H; reflexivity.
Qed.

Lemma for_each_check_delisting : forall l w,
  snd (for_each check_delisting l w) = w /\
  ((forall d, In d l -> timestamp_ok d) ->
   fst (for_each check_delisting l w) = Ok tt) /\
  (forall d, In d l -> ~ timestamp_ok d ->
   raises_assertion (fst (for_each check_delisting l w))).
Proof.
  induction l as [|x t IH]; intro w; simpl.
  - split; [reflexivity|]. split; [reflexivity|]. intros d [].
  - destruct (timestamp_ok_dec x) as [Hx|Hx].
    + erewrite bind_ok by (apply check_delisting_ok; exact Hx).
      destruct (IH w) as (Hs & Hok & Hbad).
      split; [exact Hs|]. split.
      * intro Hall. apply Hok. intros d Hd. apply Hall. right; exact Hd.
      * intros d [<-|Hd] Hnd; [contradiction|]. apply (Hbad d Hd Hnd).
    + destruct (check_delisting_bad w Hx) as [[m Hm] Hw].
      destruct (check_delisting x w) as [r w'] eqn:E. simpl in Hm, Hw.
      subst r w'. erewrite bind_raise by exact E. simpl.
      split; [reflexivity|]. split.
      * intro Hall. exfalso. apply Hx, Hall. left; reflexivity.
      * intros d _ _. exists m; reflexivity.
Qed.

Lemma for_each_check_delisting_ext : forall l l' w w',
  map type_and_time l = map type_and_time l' ->
  fst (for_each check_delisting l w) = fst (for_each check_delisting l' w').
Proof.
  induction l as [|x t IH]; intros [|x' t'] w w' H; simpl in H;
    try discriminate; [reflexivity|].
  injection H as Hty Htm Ht.
  simpl. unfold bind. rewrite !check_delisting_eq, Hty, Htm.
  destruct (DType x').
  - destruct (datetime_eq_dec (DTime x') (date 2021 3 19));
      [apply IH; exact Ht | reflexivity].
  - destruct (datetime_eq_dec (DTime x') (date 2021 3 20));
      [apply IH; exact Ht | reflexivity].
Qed.

(** C3.  [OnData] raises an [AssertionError] when the slice holds a
    delisting warning for the selected contract whose time is not
    2021-03-19, the contract's expiry, or a final delisting whose time is
    not 2021-03-20, the day after; when every delisting of the slice carries
    the expected time it raises nothing.  In all cases the state is left as
    it was. *)
Theorem OnData_checks_delisting_times : forall data w,
  snd (OnData data w) = w /\
  (forall d, In d (Values (Delistings data)) ->
     DSymbol d = ExpectedContract -> DType d = Warning ->
     DTime d <> date 2021 3 19 -> raises_assertion (fst (OnData data w))) /\
  (forall d, In d (Values (Delistings data)) ->
     DSymbol d = ExpectedContract -> DType d = Delisted ->
     DTime d <> date 2021 3 20 -> raises_assertion (fst (OnData data w))) /\
  ((forall d, In d (Values (Delistings data)) -> timestamp_ok d) ->
   OnData data w = (Ok tt, w)) /\
  (exists k r st u,
     ID ExpectedContract
       = SID SecFutureOption "ES" "cme" (date 2021 3 19) k r st u /\
     date 2021 3 20 = date 2021 3 (day (date 2021 3 19) + 1)).
Proof.
  intros data w. unfold OnData.
  destruct (for_each_check_delisting (Values (Delistings data)) w)
    as (Hs & Hok & Hbad).
  split; [exact Hs|]. split; [|split; [|split]].
  - intros d Hin _ Hty Htm. apply (Hbad d Hin).
    intros [Hw _]. apply Htm, Hw, Hty.
  - intros d Hin _ Hty Htm. apply (Hbad d Hin).
    intros [_ Hd]. apply Htm, Hd, Hty.
  - intro Hall. specialize (Hok Hall).
    destruct (for_each check_delisting _ w) as [r w']. simpl in *.
    congruence.
  - do 4 eexists. split; reflexivity.
Qed.

Lemma OnData_checks_delisting_times_witness :
  raises_assertion
    (fst (OnData (slice_of [warning_on_expiry; late_warning])
            (fresh sample_chain))) /\
  raises_assertion
    (fst (OnData (slice_of [early_delisted]) (fresh sample_chain))) /\
  OnData (slice_of [warning_on_expiry; delisted_next_day]) (fresh sample_chain)
    = (Ok tt, fresh sample_chain).
Proof.
  destruct (OnData_checks_delisting_times
              (slice_of [warning_on_expiry; late_warning])
              (fresh sample_chain)) as (_ & Hwarn & _).
  destruct (OnData_checks_delisting_times
              (slice_of [early_delisted]) (fresh sample_chain))
    as (_ & _ & Hfinal & _).
  destruct (OnData_checks_delisting_times
              (slice_of [warning_on_expiry; delisted_next_day])
              (fresh sample_chain)) as (_ & _ & _ & Hgood & _).
  split; [|split].
  - apply (Hwarn late_warning).
    + simpl; right; left; reflexivity.
    + reflexivity.
    + reflexivity.
    + intro H; discriminate H.
  - apply (Hfinal early_delisted).
    + simpl; left; reflexivity.
    + reflexivity.
    + reflexivity.
    + intro H; discriminate H.
  - apply Hgood.
    intros d [<-|[<-|[]]]; split; intro H;
      solve [reflexivity | discriminate H].
Defined.

(** C9.  The checks of [OnData] never look at the symbol of a delisting: a
    warning with a time other than 2021-03-19, or a final delisting with a
    time other than 2021-03-20, raises an [AssertionError] whichever
    security it is about, and the outcome is the same for any two slices
    whose delistings have, in order, the same types and times. *)
Theorem OnData_ignores_delisting_symbol : forall data w,
  (forall d, In d (Values (Delistings data)) ->
     (DType d = Warning /\ DTime d <> date 2021 3 19) \/
     (DType d = Delisted /\ DTime d <> date 2021 3 20) ->
     raises_assertion (fst (OnData data w))) /\
  (forall data' w',
     map type_and_time (Values (Delistings data))
       = map type_and_time (Values (Delistings data')) ->
     fst (OnData data w) = fst (OnData data' w')).
Proof.
  intros data w; split.
  - intros d Hin Hbad. unfold OnData.
    destruct (for_each_check_delisting (Values (Delistings data)) w)
      as (_ & _ & H).
    apply (H d Hin). intros [Hw Hd].
    destruct Hbad as [[Hty Htm]|[Hty Htm]]; auto.
  - intros data' w' H. unfold OnData.
    apply for_each_check_delisting_ext; exact H.
Qed.

Lemma OnData_ignores_delisting_symbol_witness :
  raises_assertion
    (fst (OnData (slice_of [equity_warning]) (fresh sample_chain))) /\
  raises_assertion
    (fst (OnData (slice_of [warning_on_expiry; equity_delisted])
            (fresh sample_chain))) /\
  fst (OnData (slice_of [equity_warning]) (fresh sample_chain))
    = fst (OnData (slice_of [mkDelisting ExpectedContract Warning (date 2021 6 1)])
             (fresh low_chain)).
Proof.
  destruct (OnData_ignores_delisting_symbol (slice_of [equity_warning])
              (fresh sample_chain)) as [Hbad Hext].
  destruct (OnData_ignores_delisting_symbol
              (slice_of [warning_on_expiry; equity_delisted])
              (fresh sample_chain)) as [Hbad' _].
  split; [|split].
  - apply (Hbad equity_warning).
    + simpl; left; reflexivity.
    + left; split; [reflexivity | intro H; discriminate H].
  - apply (Hbad' equity_delisted).
    + simpl; right; left; reflexivity.
    + right; split; [reflexivity | intro H; discriminate H].
  - apply Hext. reflexivity.
Defined.

(** ** End of the run *)

Lemma OnEndOfAlgorithm_eq : forall w,
  OnEndOfAlgorithm w =
  (if PortfolioInvested w
   then Raise (AssertionError (StillInvested (map ID (PortfolioKeys w))))
   else Ok tt, w).
Proof.
  intro w; unfold OnEndOfAlgorithm, bind, gets.
  destruct (PortfolioInvested w); reflexivity.
Qed.

Lemma existsb_false_filter : forall A (f : A -> bool) l,
  existsb f l = false <-> filter f l = [].
Proof.
  intros A f l; induction l as [|x t IH]; simpl; [tauto|].
  destruct (f x); simpl; [split; discriminate | exact IH].
Qed.

Lemma PortfolioKeys_nil : forall w,
  PortfolioKeys w = [] <-> PortfolioInvested w = false.
Proof.
  intro w; unfold PortfolioKeys, PortfolioInvested.
  rewrite existsb_false_filter.
  destruct (filter Invested (Securities w)); simpl; split; congruence.
Qed.

(** C4.  [OnEndOfAlgorithm] raises an [AssertionError] exactly when the
    portfolio's invested flag is set, that is, when the portfolio reports an
    open position; it returns normally exactly when the run ends flat, the
    flag false and the list of open positions empty.  The state is left as
    it was. *)
Theorem OnEndOfAlgorithm_raises_iff_invested : forall w,
  snd (OnEndOfAlgorithm w) = w /\
  (raises_assertion (fst (OnEndOfAlgorithm w)) <-> PortfolioInvested w = true) /\
  (PortfolioInvested w = true <->
   exists x, In x (Securities w) /\ ~ (HoldingsQuantity x == 0)%Q) /\
  (fst (OnEndOfAlgorithm w) = Ok tt <->
   PortfolioInvested w = false /\ PortfolioKeys w = []).
Proof.
  intro w. rewrite OnEndOfAlgorithm_eq. simpl.
  split; [reflexivity|]. split; [|split].
  - destruct (PortfolioInvested w); split.
    + reflexivity.
    + intros _; eexists; reflexivity.
    + intros [m Hm]; discriminate Hm.
    + discriminate.
  - unfold PortfolioInvested. rewrite existsb_exists.
    split; intros [x [Hin Hx]]; exists x; split; try exact Hin.
    + unfold Invested in Hx. intro Hq. apply Qeq_bool_iff in Hq.
      rewrite Hq in Hx. discriminate Hx.
    + unfold Invested. destruct (Qeq_bool (HoldingsQuantity x) 0) eqn:E;
        [|reflexivity].
      exfalso. apply Hx, Qeq_bool_iff, E.
  - pose proof (PortfolioKeys_nil w) as Hk.
    destruct (PortfolioInvested w); split.
    + discriminate.
    + intros [H _]; discriminate H.
    + intros _. split; [reflexivity | apply Hk; reflexivity].
    + reflexivity.
Qed.

Lemma OnEndOfAlgorithm_raises_iff_invested_witness :
  fst (OnEndOfAlgorithm (world_with flat_book)) = Ok tt /\
  raises_assertion (fst (OnEndOfAlgorithm (world_with short_book))).
Proof.
  destruct (OnEndOfAlgorithm_raises_iff_invested (world_with flat_book))
    as (_ & _ & _ & Hflat).
  destruct (OnEndOfAlgorithm_raises_iff_invested (world_with short_book))
    as (_ & Hshort & _).
  split.
  - apply Hflat. split; reflexivity.
  - apply Hshort. reflexivity.
Defined.

(** ** Order events, continued *)

Lemma ContainsKey_lookup : forall s l,
  ContainsKey s l = true <-> exists x, lookup s l = Some x.
Proof.
  intros s l; unfold ContainsKey; destruct (lookup s l) as [x|]; split.
  - intros _; exists x; reflexivity.
  - reflexivity.
  - discriminate.
  - intros [x Hx]; discriminate Hx.
Qed.

Lemma OnOrderEvent_filled : forall e w u c,
  Status e = Filled -> es19h21 w = Some u -> expectedContract w = Some c ->
  OnOrderEvent e w =
  match lookup (OESymbol e) (Securities w) with
  | None => (Raise (AssertionError (SymbolNotInSecurities (OESymbol e))), w)
  | Some security =>
      if Symbol_eqb (OESymbol e) u
      then (Raise (AssertionError (NoOrderEventsForUnderlying (OESymbol e))), w)
      else if Symbol_eqb (OESymbol e) c
      then (AssertFutureOptionContractOrder e security ;;
            Log (LogOrderEvent e)) w
      else (Raise (AssertionError (UnknownSymbol (OESymbol e))), w)
  end.
Proof.
  intros e w u c Hst Hu Hc. unfold OnOrderEvent.
  destruct (OrderStatus_eq_dec (Status e) Filled); [|contradiction].
  unfold bind at 1, gets.
  destruct (lookup (OESymbol e) (Securities w)) as [sec|] eqn:El;
    [|reflexivity].
  rewrite (lookup_symbol _ _ El).
  unfold bind at 1, attr. rewrite Hu.
  destruct (Symbol_eqb (OESymbol e) u); [reflexivity|].
  unfold bind at 1. simpl.
  unfold bind at 1, attr. rewrite Hc.
  destruct (Symbol_eqb (OESymbol e) c); reflexivity.
Qed.

(** C5.  [OnOrderEvent] returns at once, with no effect, on an event whose
    status is not [Filled].  On a filled event it raises an
    [AssertionError] when the symbol is not in the securities collection,
    when the symbol is the underlying future, and when it is a registered
    symbol other than the expected contract; only a filled event on the
    expected contract reaches [AssertFutureOptionContractOrder], after which
    the event is logged. *)
Theorem OnOrderEvent_dispatch : forall e w u c,
  es19h21 w = Some u -> expectedContract w = Some c ->
  (Status e <> Filled -> OnOrderEvent e w = (Ok tt, w)) /\
  (Status e = Filled -> ContainsKey (OESymbol e) (Securities w) = false ->
   OnOrderEvent e w =
   (Raise (AssertionError (SymbolNotInSecurities (OESymbol e))), w)) /\
  (Status e = Filled -> ContainsKey (OESymbol e) (Securities w) = true ->
   OESymbol e = u ->
   OnOrderEvent e w =
   (Raise (AssertionError (NoOrderEventsForUnderlying u)), w)) /\
  (Status e = Filled -> ContainsKey (OESymbol e) (Securities w) = true ->
   OESymbol e <> u -> OESymbol e <> c ->
   OnOrderEvent e w =
   (Raise (AssertionError (UnknownSymbol (OESymbol e))), w)) /\
  (Status e = Filled -> OESymbol e <> u -> OESymbol e = c ->
   forall security, lookup (OESymbol e) (Securities w) = Some security ->
   SecSymbol security = c /\
   OnOrderEvent e w =
   (AssertFutureOptionContractOrder e security ;; Log (LogOrderEvent e)) w).
Proof.
  intros e w u c Hu Hc.
  split; [|split; [|split; [|split]]].
  - intro Hst. unfold OnOrderEvent.
    destruct (OrderStatus_eq_dec (Status e) Filled); [contradiction|].
    reflexivity.
  - intros Hst Hk. rewrite (OnOrderEvent_filled e w Hst Hu Hc).
    unfold ContainsKey in Hk.
    destruct (lookup (OESymbol e) (Securities w)); [discriminate|reflexivity].
  - intros Hst Hk He. rewrite (OnOrderEvent_filled e w Hst Hu Hc).
    apply ContainsKey_lookup in Hk. destruct Hk as [x Hx]. rewrite Hx.
    rewrite He, Symbol_eqb_refl. reflexivity.
  - intros Hst Hk Hnu Hnc. rewrite (OnOrderEvent_filled e w Hst Hu Hc).
    apply ContainsKey_lookup in Hk. destruct Hk as [x Hx]. rewrite Hx.
    apply Symbol_eqb_neq in Hnu, Hnc. rewrite Hnu, Hnc. reflexivity.
  - intros Hst Hnu He security Hl.
    split; [rewrite (lookup_symbol _ _ Hl); exact He|].
    rewrite (OnOrderEvent_filled e w Hst Hu Hc), Hl.
    apply Symbol_eqb_neq in Hnu. rewrite Hnu.
    apply Symbol_eqb_eq in He. rewrite He. reflexivity.
Qed.

Lemma OnOrderEvent_dispatch_witness :
  OnOrderEvent (mkOrderEvent ES19H21 Submitted Sell false) (world_with short_book)
    = (Ok tt, world_with short_book) /\
  fst (OnOrderEvent (mkOrderEvent (put_at 3300) Filled Sell false)
         (world_with short_book))
    = Raise (AssertionError (SymbolNotInSecurities (put_at 3300))) /\
  fst (OnOrderEvent (mkOrderEvent ES19H21 Filled Sell false)
         (world_with short_book))
    = Raise (AssertionError (NoOrderEventsForUnderlying ES19H21)) /\
  fst (OnOrderEvent (mkOrderEvent AAPL Filled Buy false)
         (world_with short_book))
    = Raise (AssertionError (UnknownSymbol AAPL)) /\
  fst (OnOrderEvent sell_fill (world_with short_book)) = Ok tt.
Proof.
  split; [|split; [|split; [|split]]].
  - apply (OnOrderEvent_dispatch
             (mkOrderEvent ES19H21 Submitted Sell false)
             (world_with short_book) eq_refl eq_refl).
    intro H; discriminate H.
  - destruct (OnOrderEvent_dispatch
                (mkOrderEvent (put_at 3300) Filled Sell false)
                (world_with short_book) eq_refl eq_refl) as (_ & H & _).
    rewrite H; reflexivity.
  - destruct (OnOrderEvent_dispatch
                (mkOrderEvent ES19H21 Filled Sell false)
                (world_with short_book) eq_refl eq_refl) as (_ & _ & H & _).
    rewrite H; reflexivity.
  - destruct (OnOrderEvent_dispatch
                (mkOrderEvent AAPL Filled Buy false)
                (world_with short_book) eq_refl eq_refl) as (_ & _ & _ & H & _).
    rewrite H; try reflexivity; intro E; discriminate E.
  - destruct (OnOrderEvent_dispatch sell_fill
                (world_with short_book) eq_refl eq_refl) as (_ & _ & _ & _ & H).
    assert (Hne : OESymbol sell_fill <> ES19H21) by (intro E; discriminate E).
    destruct (H eq_refl Hne eq_refl short_one eq_refl) as [_ Hr].
    rewrite Hr. reflexivity.
Defined.

(** ** Frames of the callbacks *)

Section CallbackFrames.
Variable X : Type.
Variable proj : World -> X.

(** [proj] does not look at the log. *)
Hypothesis proj_log : forall e, frame proj (Log e).

Lemma frame_check_delisting : forall d, frame proj (check_delisting d).
Proof.
  intros d w. rewrite check_delisting_eq. reflexivity.
Qed.

Lemma frame_OnData : forall data, frame proj (OnData data).
Proof.
  intro data. unfold OnData. apply frame_for_each.
  apply frame_check_delisting.
Qed.

Lemma frame_AssertFutureOptionContractOrder : forall e sec,
  frame proj (AssertFutureOptionContractOrder e sec).
Proof.
  intros e sec w. rewrite AssertFutureOptionContractOrder_eq. reflexivity.
Qed.

Lemma frame_OnOrderEvent : forall e, frame proj (OnOrderEvent e).
Proof.
  intro e. unfold OnOrderEvent.
  apply frame_sumbool; [|apply frame_ret].
  apply frame_bind; [apply frame_gets|]. intro secs.
  destruct (lookup (OESymbol e) secs) as [sec|]; [|apply frame_raise].
  apply frame_bind; [apply frame_attr|]. intro u.
  apply frame_bind.
  { apply frame_if; [apply frame_raise | apply frame_ret]. }
  intros _. apply frame_bind; [apply frame_attr|]. intro c.
  apply frame_bind.
  { apply frame_if;
      [apply frame_AssertFutureOptionContractOrder | apply frame_raise]. }
  intros _. apply proj_log.
Qed.

Lemma frame_OnEndOfAlgorithm : frame proj OnEndOfAlgorithm.
Proof. intro w. rewrite OnEndOfAlgorithm_eq. reflexivity. Qed.
End CallbackFrames.

Lemma ScheduledMarketOrder_eq : forall w s,
  esOption w = Some s ->
  ScheduledMarketOrder w =
  (Ok tt,
   mkWorld (es19h21 w) (esOption w) (expectedContract w) (StartDate w)
     (EndDate w) (Securities w) (OptionChainProvider w)
     (Transactions w ++ [mkMarketOrder s (-1)]) (Schedule w) (LogLines w)).
Proof.
  intros w s H. destruct w; simpl in H; subst. reflexivity.
Qed.

Lemma frame_ScheduledMarketOrder_attributes :
  frame attributes ScheduledMarketOrder.
Proof.
  unfold ScheduledMarketOrder.
  apply frame_bind; [apply frame_attr|]. intros s w. reflexivity.
Qed.

Lemma frame_dispatch_attributes : forall ev, frame attributes (dispatch ev).
Proof.
  intros [data|e|s q| |]; simpl.
  - apply frame_OnData.
  - apply frame_OnOrderEvent. intros e' w; reflexivity.
  - intro w; reflexivity.
  - apply frame_bind; [intro w; reflexivity|]. intro due.
    apply frame_for_each. intros [d s n []]; simpl.
    apply frame_ScheduledMarketOrder_attributes.
  - apply frame_OnEndOfAlgorithm.
Qed.

(** C7.  The attributes of the instance are assigned by [Initialize] only:
    a successful setup leaves the underlying future in [es19h21] and the
    expected contract in [esOption] and [expectedContract], and [OnData],
    [OnOrderEvent], [ScheduledMarketOrder],
    [AssertFutureOptionContractOrder] and [OnEndOfAlgorithm] return, or
    raise, with every attribute as they found it; so does any sequence of
    callbacks the engine plays after setup. *)
Theorem callbacks_keep_attributes :
  (forall w, fst (Initialize w) = Ok tt ->
     attributes (snd (Initialize w))
     = (Some ES19H21, Some ExpectedContract, Some ExpectedContract)) /\
  (forall data w, attributes (snd (OnData data w)) = attributes w) /\
  (forall e w, attributes (snd (OnOrderEvent e w)) = attributes w) /\
  (forall w, attributes (snd (ScheduledMarketOrder w)) = attributes w) /\
  (forall e sec w,
     attributes (snd (AssertFutureOptionContractOrder e sec w)) = attributes w) /\
  (forall w, attributes (snd (OnEndOfAlgorithm w)) = attributes w) /\
  (forall evs w, attributes (snd (for_each dispatch evs w)) = attributes w).
Proof.
  split; [|split; [|split; [|split; [|split; [|split]]]]].
  - intros w. rewrite Initialize_eq.
    destruct (candidates w) as [|first rest]; [discriminate|].
    destruct (Symbol_eqb first ExpectedContract) eqn:E; [|discriminate].
    intros _. apply Symbol_eqb_eq in E. subst first. reflexivity.
  - intro data. apply frame_OnData.
  - intro e. apply frame_OnOrderEvent. intros e' w; reflexivity.
  - apply frame_ScheduledMarketOrder_attributes.
  - intros e sec. apply frame_AssertFutureOptionContractOrder.
  - apply frame_OnEndOfAlgorithm.
  - intro evs. apply frame_for_each. apply frame_dispatch_attributes.
Qed.

Lemma callbacks_keep_attributes_witness :
  attributes (snd (Initialize (fresh sample_chain)))
    = (Some ES19H21, Some ExpectedContract, Some ExpectedContract) /\
  attributes (snd (backtest scenario (fresh sample_chain)))
    = (Some ES19H21, Some ExpectedContract, Some ExpectedContract).
Proof.
  destruct callbacks_keep_attributes as (Hinit & _ & _ & _ & _ & _ & Hrun).
  assert (Hok : Initialize (fresh sample_chain)
                = (Ok tt, snd (Initialize (fresh sample_chain))))
    by (vm_compute; reflexivity).
  assert (H : attributes (snd (Initialize (fresh sample_chain)))
              = (Some ES19H21, Some ExpectedContract, Some ExpectedContract)).
  { apply Hinit. rewrite Hok. reflexivity. }
  split; [exact H|].
  unfold backtest. erewrite bind_ok by exact Hok.
  rewrite Hrun. exact H.
Defined.

(** ** Orders of a run *)

Lemma frame_dispatch_orders : forall ev,
  ev <> EvScheduleDue -> frame orders_view (dispatch ev).
Proof.
  intros [data|e|s q| |] Hne; simpl.
  - apply frame_OnData.
  - apply frame_OnOrderEvent. intros e' w; reflexivity.
  - intro w; reflexivity.
  - contradiction.
  - apply frame_OnEndOfAlgorithm.
Qed.

Lemma set_up_orders_view : forall w w',
  orders_view w' = orders_view w -> set_up w -> set_up w'.
Proof.
  intros w w' H. unfold orders_view in H. injection H as Ho Hs Ht.
  unfold set_up, pending, fired. rewrite Ho, Hs, Ht. tauto.
Qed.

Lemma fired_orders_view : forall w w',
  orders_view w' = orders_view w -> fired w -> fired w'.
Proof.
  intros w w' H. unfold orders_view in H. injection H as Ho Hs Ht.
  unfold fired. rewrite Hs, Ht. tauto.
Qed.

Lemma dispatch_due : forall w,
  set_up w ->
  fst (dispatch EvScheduleDue w) = Ok tt /\
  esOption (snd (dispatch EvScheduleDue w)) = Some ExpectedContract /\
  fired (snd (dispatch EvScheduleDue w)).
Proof.
  intros w [Ho [[Hs Ht]|[Hs Ht]]]; destruct w; simpl in *; subst;
    repeat split; reflexivity.
Qed.

Lemma dispatch_set_up : forall ev w,
  set_up w -> set_up (snd (dispatch ev w)).
Proof.
  intros ev w H. destruct ev as [data|e|s q| |];
    try (eapply set_up_orders_view; [|exact H];
         apply frame_dispatch_orders; discriminate).
  destruct (dispatch_due H) as (_ & Ho & Hf). split; [exact Ho | right; exact Hf].
Qed.

Lemma dispatch_fired : forall ev w,
  set_up w -> fired w -> fired (snd (dispatch ev w)).
Proof.
  intros ev w H Hf. destruct ev as [data|e|s q| |];
    try (eapply fired_orders_view; [|exact Hf];
         apply frame_dispatch_orders; discriminate).
  destruct (dispatch_due H) as (_ & _ & Hf'). exact Hf'.
Qed.

Lemma run_set_up : forall evs w,
  set_up w -> set_up (snd (for_each dispatch evs w)).
Proof.
  induction evs as [|ev t IH]; intros w H; simpl; [exact H|].
  unfold bind. pose proof (dispatch_set_up ev H) as H'.
  destruct (dispatch ev w) as [[[]|e] w']; simpl in H'.
  - apply IH; exact H'.
  - exact H'.
Qed.

Lemma run_fired : forall evs w,
  set_up w -> fired w -> fired (snd (for_each dispatch evs w)).
Proof.
  induction evs as [|ev t IH]; intros w H Hf; simpl; [exact Hf|].
  unfold bind. pose proof (dispatch_set_up ev H) as H'.
  pose proof (dispatch_fired ev H Hf) as Hf'.
  destruct (dispatch ev w) as [[[]|e] w']; simpl in H', Hf'.
  - apply IH; assumption.
  - exact Hf'.
Qed.

Lemma run_fires : forall evs w,
  set_up w -> fst (for_each dispatch evs w) = Ok tt ->
  In EvScheduleDue evs -> fired (snd (for_each dispatch evs w)).
Proof.
  induction evs as [|ev t IH]; intros w H Hok Hin; [destruct Hin|].
  simpl in Hok |- *. unfold bind in *.
  pose proof (dispatch_set_up ev H) as H'.
  destruct Hin as [->|Hin].
  - destruct (dispatch_due H) as (Hr & _ & Hf).
    destruct (dispatch EvScheduleDue w) as [[[]|e] w']; simpl in *;
      [|discriminate].
    apply run_fired; assumption.
  - destruct (dispatch ev w) as [[[]|e] w']; simpl in *; [|discriminate].
    apply IH; assumption.
Qed.

Lemma Initialize_set_up : forall w,
  Schedule w = [] -> Transactions w = [] ->
  match fst (Initialize w) with
  | Ok _ => set_up (snd (Initialize w)) /\ pending (snd (Initialize w))
  | Raise _ => Transactions (snd (Initialize w)) = []
  end.
Proof.
  intros w Hs Ht. rewrite Initialize_eq.
  destruct (candidates w) as [|first rest]; simpl; [exact Ht|].
  destruct (Symbol_eqb first ExpectedContract) eqn:E; simpl; [|exact Ht].
  apply Symbol_eqb_eq in E. subst first.
  unfold set_up, pending; simpl. rewrite Hs, Ht. simpl.
  split; [split; [reflexivity | left]|]; split; reflexivity.
Qed.

(** C6.  [ScheduledMarketOrder] submits one market order, for the contract
    in [esOption] and the signed quantity -1, whatever the holdings are, and
    returns; no other callback submits an order.  In a run that starts with
    no schedule and no orders, setup registers the callback once, for one
    day, so the orders of the run are none or that single sell, and are that
    single sell whenever the run completes and the scheduled time was
    reached. *)
Theorem ScheduledMarketOrder_single_order :
  (forall w s, esOption w = Some s ->
     fst (ScheduledMarketOrder w) = Ok tt /\
     Transactions (snd (ScheduledMarketOrder w))
       = Transactions w ++ [mkMarketOrder s (-1)] /\
     Securities (snd (ScheduledMarketOrder w)) = Securities w /\
     Schedule (snd (ScheduledMarketOrder w)) = Schedule w) /\
  (forall w, Transactions (snd (Initialize w)) = Transactions w) /\
  (forall data w, Transactions (snd (OnData data w)) = Transactions w) /\
  (forall e w, Transactions (snd (OnOrderEvent e w)) = Transactions w) /\
  (forall w, Transactions (snd (OnEndOfAlgorithm w)) = Transactions w) /\
  (forall evs w, Schedule w = [] -> Transactions w = [] ->
     (Transactions (snd (backtest evs w)) = [] \/
      Transactions (snd (backtest evs w)) = [the_order]) /\
     (fst (backtest evs w) = Ok tt -> In EvScheduleDue evs ->
      Transactions (snd (backtest evs w)) = [the_order])).
Proof.
  split; [|split; [|split; [|split; [|split]]]].
  - intros w s H. rewrite (ScheduledMarketOrder_eq w H). simpl.
    repeat split; reflexivity.
  - intro w. rewrite Initialize_eq.
    destruct (candidates w) as [|first rest]; [reflexivity|].
    destruct (Symbol_eqb first ExpectedContract); reflexivity.
  - intro data. apply (frame_OnData Transactions).
  - intro e. apply (@frame_OnOrderEvent _ Transactions). intros e' w; reflexivity.
  - apply (frame_OnEndOfAlgorithm Transactions).
  - intros evs w Hs Ht. pose proof (Initialize_set_up w Hs Ht) as Hi.
    unfold backtest, bind.
    destruct (Initialize w) as [[[]|e] w']; simpl in Hi |- *.
    + destruct Hi as [Hset _]. split.
      * destruct (run_set_up evs Hset) as [_ [[_ H]|[_ H]]]; auto.
      * intros Hok Hin. apply (run_fires evs Hset Hok Hin).
    + split; [left; exact Hi | discriminate].
Qed.

Lemma ScheduledMarketOrder_single_order_witness :
  fst (backtest scenario (fresh sample_chain)) = Ok tt /\
  Transactions (snd (backtest scenario (fresh sample_chain))) = [the_order] /\
  Transactions (snd (ScheduledMarketOrder (world_with short_book)))
    = [the_order].
Proof.
  destruct ScheduledMarketOrder_single_order as (Hone & _ & _ & _ & _ & Hrun).
  assert (Hok : fst (backtest scenario (fresh sample_chain)) = Ok tt)
    by (vm_compute; reflexivity).
  split; [exact Hok|]. split.
  - apply (Hrun scenario (fresh sample_chain) eq_refl eq_refl).
    + exact Hok.
    + simpl; right; left; reflexivity.
  - destruct (Hone (world_with short_book) ExpectedContract eq_refl)
      as (_ & H & _).
    exact H.
Defined.

(** ** Two runs on the same inputs *)

Lemma same_inputs_fields : forall w1 w2,
  same_inputs w1 w2 <->
  es19h21 w1 = es19h21 w2 /\ esOption w1 = esOption w2 /\
  expectedContract w1 = expectedContract w2 /\
  Securities w1 = Securities w2 /\ Transactions w1 = Transactions w2 /\
  Schedule w1 = Schedule w2 /\
  OptionChainProvider w1 = OptionChainProvider w2.
Proof.
  intros w1 w2; unfold same_inputs, observe; split.
  - intros [H Hp]. injection H as H1 H2 H3 H4 H5 H6. tauto.
  - intros (H1 & H2 & H3 & H4 & H5 & H6 & Hp).
    rewrite H1, H2, H3, H4, H5, H6. tauto.
Qed.

Ltac same_inputs_tac :=
  let H := fresh "H" in
  intros ? ? H; apply same_inputs_fields in H;
  destruct H as (? & ? & ? & ? & ? & ? & ?);
  split; [| apply same_inputs_fields]; simpl; repeat split; congruence.

Lemma respects_ret : forall A (a : A), respects (ret a).
Proof. intros A a w1 w2 H; split; [reflexivity | exact H]. Qed.

Lemma respects_raise : forall A e, respects (@raise A e).
Proof. intros A e w1 w2 H; split; [reflexivity | exact H]. Qed.

Lemma respects_bind : forall A B (m : M A) (k : A -> M B),
  respects m -> (forall a, respects (k a)) -> respects (bind m k).
Proof.
  intros A B m k Hm Hk w1 w2 H. unfold bind.
  destruct (Hm w1 w2 H) as [Hr Hw].
  destruct (m w1) as [[a1|e1] w1'], (m w2) as [[a2|e2] w2']; simpl in *;
    try discriminate.
  - injection Hr as <-. apply Hk; exact Hw.
  - injection Hr as <-. split; [reflexivity | exact Hw].
Qed.

Lemma respects_if : forall A (b : bool) (m1 m2 : M A),
  respects m1 -> respects m2 -> respects (if b then m1 else m2).
Proof. intros A b m1 m2 H1 H2; destruct b; assumption. Qed.

Lemma respects_sumbool : forall A (P Q : Prop) (b : {P} + {Q}) (m1 m2 : M A),
  respects m1 -> respects m2 -> respects (if b then m1 else m2).
Proof. intros A P Q b m1 m2 H1 H2; destruct b; assumption. Qed.

Lemma respects_for_each : forall A (body : A -> M unit) l,
  (forall a, respects (body a)) -> respects (for_each body l).
Proof.
  intros A body l Hb; induction l as [|x t IH]; simpl.
  - apply respects_ret.
  - apply respects_bind; [apply Hb | intros _; exact IH].
Qed.

Lemma respects_attr_es19h21 : respects (attr "es19h21" es19h21).
Proof.
  intros w1 w2 H. pose proof H as H'. apply same_inputs_fields in H'.
  destruct H' as (E & _). unfold attr. rewrite E.
  destruct (es19h21 w2); split; (reflexivity || exact H).
Qed.

Lemma respects_attr_esOption : respects (attr "esOption" esOption).
Proof.
  intros w1 w2 H. pose proof H as H'. apply same_inputs_fields in H'.
  destruct H' as (_ & E & _). unfold attr. rewrite E.
  destruct (esOption w2); split; (reflexivity || exact H).
Qed.

Lemma respects_attr_expectedContract :
  respects (attr "expectedContract" expectedContract).
Proof.
  intros w1 w2 H. pose proof H as H'. apply same_inputs_fields in H'.
  destruct H' as (_ & _ & E & _). unfold attr. rewrite E.
  destruct (expectedContract w2); split; (reflexivity || exact H).
Qed.

Lemma respects_Log : forall e, respects (Log e).
Proof. intro e. same_inputs_tac. Qed.

Lemma respects_set_es19h21 : forall s, respects (set_es19h21 s).
Proof. intro s. same_inputs_tac. Qed.

Lemma respects_set_esOption : forall s, respects (set_esOption s).
Proof. intro s. same_inputs_tac. Qed.

Lemma respects_set_expectedContract : forall s,
  respects (set_expectedContract s).
Proof. intro s. same_inputs_tac. Qed.

Lemma respects_SetStartDate : forall y m d, respects (SetStartDate y m d).
Proof. intros y m d. same_inputs_tac. Qed.

Lemma respects_SetEndDateField : forall d, respects (SetEndDateField d).
Proof. intro d. same_inputs_tac. Qed.

Lemma respects_MarketOrder : forall s q, respects (MarketOrder s q).
Proof. intros s q. same_inputs_tac. Qed.

Lemma respects_ScheduleOn : forall d s n f, respects (ScheduleOn d s n f).
Proof. intros d s n f. same_inputs_tac. Qed.

Lemma respects_SetHoldings : forall s q, respects (SetHoldings s q).
Proof. intros s q. same_inputs_tac. Qed.

Lemma respects_TakeDue : respects TakeDue.
Proof. same_inputs_tac. Qed.

Lemma respects_gets_Securities : respects (gets Securities).
Proof. same_inputs_tac. Qed.

Lemma respects_gets_PortfolioInvested : respects (gets PortfolioInvested).
Proof. unfold PortfolioInvested. same_inputs_tac. Qed.

Lemma respects_gets_PortfolioKeys : respects (gets PortfolioKeys).
Proof. unfold PortfolioKeys. same_inputs_tac. Qed.

Lemma respects_GetOptionContractList : forall u t,
  respects (GetOptionContractList u t).
Proof. intros u t. unfold GetOptionContractList. same_inputs_tac. Qed.

Lemma respects_AddSecurity : forall s, respects (AddSecurity s).
Proof.
  intros s w1 w2 H. rewrite !AddSecurity_eq.
  apply same_inputs_fields in H. destruct H as (? & ? & ? & E & ? & ? & ?).
  rewrite E. split; [reflexivity|].
  apply same_inputs_fields; simpl. repeat split; congruence.
Qed.

Lemma respects_subscript0 : forall A (l : list A), respects (subscript0 l).
Proof.
  intros A [|x t]; simpl; [apply respects_raise | apply respects_ret].
Qed.

Create HintDb respects.
#[local] Hint Resolve respects_ret respects_raise respects_if
  respects_sumbool respects_for_each respects_attr_es19h21
  respects_attr_esOption respects_attr_expectedContract respects_Log
  respects_set_es19h21 respects_set_esOption respects_set_expectedContract
  respects_SetStartDate respects_SetEndDateField respects_MarketOrder
  respects_ScheduleOn respects_SetHoldings respects_TakeDue
  respects_gets_Securities respects_gets_PortfolioInvested
  respects_gets_PortfolioKeys respects_GetOptionContractList
  respects_AddSecurity respects_subscript0 : respects.

Ltac respects_tac :=
  repeat first
    [ apply respects_bind; [| intro]
    | apply respects_if
    | apply respects_sumbool
    | apply respects_for_each; intro
    | solve [auto with respects] ].

Lemma respects_Initialize : respects Initialize.
Proof.
  unfold Initialize, AddEquity, AddFutureContract, AddFutureOptionContract.
  respects_tac.
Qed.

Lemma respects_ScheduledMarketOrder : respects ScheduledMarketOrder.
Proof. unfold ScheduledMarketOrder. respects_tac. Qed.

Lemma respects_OnData : forall data, respects (OnData data).
Proof. intro data. unfold OnData, check_delisting. respects_tac. Qed.

Lemma respects_AssertFutureOptionContractOrder : forall e sec,
  respects (AssertFutureOptionContractOrder e sec).
Proof. intros e sec. unfold AssertFutureOptionContractOrder. respects_tac. Qed.

Lemma respects_OnOrderEvent : forall e, respects (OnOrderEvent e).
Proof.
  intro e. unfold OnOrderEvent.
  apply respects_sumbool; [|apply respects_ret].
  apply respects_bind; [apply respects_gets_Securities|]. intro secs.
  destruct (lookup (OESymbol e) secs); [|apply respects_raise].
  respects_tac.
Qed.

Lemma respects_OnEndOfAlgorithm : respects OnEndOfAlgorithm.
Proof.
  unfold OnEndOfAlgorithm.
  apply respects_bind; [apply respects_gets_PortfolioInvested|].
  intros []; respects_tac.
Qed.

Lemma respects_dispatch : forall ev, respects (dispatch ev).
Proof.
  intros [data|e|s q| |]; simpl.
  - apply respects_OnData.
  - apply respects_OnOrderEvent.
  - apply respects_SetHoldings.
  - apply respects_bind; [apply respects_TakeDue|]. intro due.
    apply respects_for_each. intros [d s n []]; simpl.
    apply respects_ScheduledMarketOrder.
  - apply respects_OnEndOfAlgorithm.
Qed.

(** C8.  The scenario is deterministic in its inputs: started on two engine
    states that agree on the option chain, the securities and holdings, the
    submitted orders, the schedule and the attributes of the instance (and
    may differ in the log and the configured dates, which no callback
    reads), each callback and each whole run, setup followed by any sequence
    of engine events, gives the same outcome, raising the same exception or
    none, and leaves states that agree again, with the same orders
    submitted. *)
Theorem callbacks_deterministic :
  (forall w1 w2, same_inputs w1 w2 ->
     fst (Initialize w1) = fst (Initialize w2) /\
     same_inputs (snd (Initialize w1)) (snd (Initialize w2))) /\
  (forall w1 w2, same_inputs w1 w2 ->
     fst (ScheduledMarketOrder w1) = fst (ScheduledMarketOrder w2) /\
     same_inputs (snd (ScheduledMarketOrder w1)) (snd (ScheduledMarketOrder w2))) /\
  (forall data w1 w2, same_inputs w1 w2 ->
     fst (OnData data w1) = fst (OnData data w2) /\
     same_inputs (snd (OnData data w1)) (snd (OnData data w2))) /\
  (forall e w1 w2, same_inputs w1 w2 ->
     fst (OnOrderEvent e w1) = fst (OnOrderEvent e w2) /\
     same_inputs (snd (OnOrderEvent e w1)) (snd (OnOrderEvent e w2))) /\
  (forall w1 w2, same_inputs w1 w2 ->
     fst (OnEndOfAlgorithm w1) = fst (OnEndOfAlgorithm w2) /\
     same_inputs (snd (OnEndOfAlgorithm w1)) (snd (OnEndOfAlgorithm w2))) /\
  (forall evs w1 w2, same_inputs w1 w2 ->
     fst (backtest evs w1) = fst (backtest evs w2) /\
     Transactions (snd (backtest evs w1)) = Transactions (snd (backtest evs w2)) /\
     same_inputs (snd (backtest evs w1)) (snd (backtest evs w2))).
Proof.
  split; [|split; [|split; [|split; [|split]]]].
  - apply respects_Initialize.
  - apply respects_ScheduledMarketOrder.
  - apply respects_OnData.
  - apply respects_OnOrderEvent.
  - apply respects_OnEndOfAlgorithm.
  - intros evs w1 w2 H.
    assert (Hr : respects (backtest evs)).
    { unfold backtest. apply respects_bind; [apply respects_Initialize|].
      intros _. apply respects_for_each. apply respects_dispatch. }
    destruct (Hr w1 w2 H) as [Hres Hsame].
    split; [exact Hres|]. split; [|exact Hsame].
    apply same_inputs_fields in Hsame. tauto.
Qed.

Lemma callbacks_deterministic_witness :
  fst (backtest scenario (fresh sample_chain)) = fst (backtest scenario relogged) /\
  Transactions (snd (backtest scenario relogged)) = [the_order] /\
  fst (OnData (slice_of [late_warning]) (fresh sample_chain))
    = fst (OnData (slice_of [late_warning]) relogged).
Proof.
  destruct callbacks_deterministic as (_ & _ & Hdata & _ & _ & Hrun).
  assert (Hs : same_inputs (fresh sample_chain) relogged)
    by (split; reflexivity).
  destruct (Hrun scenario _ _ Hs) as (Hres & Htx & _).
  split; [exact Hres|]. split.
  - rewrite <- Htx. vm_compute. reflexivity.
  - apply (Hdata (slice_of [late_warning]) _ _ Hs).
Defined.

(** * Further properties of the callbacks *)

(** ** Selection among equal strikes *)

Section Stability.
Variable A : Type.
Variable key : A -> Z.

Lemma sorted_head_first : forall l c r,
  sorted key l = c :: r ->
  exists l1 l2, l = l1 ++ c :: l2 /\
    (forall y, In y l1 -> key c < key y) /\
    (forall y, In y l2 -> key c <= key y).
Proof.
  induction l as [|x t IH]; intros c r H; simpl in H; [discriminate|].
  destruct (sorted key t) as [|y r'] eqn:E; simpl in H.
  - injection H as <- <-. apply sorted_nil in E. subst t.
    exists [], []. split; [reflexivity|]. split; intros y [].
  - destruct (key x <=? key y) eqn:Le.
    + injection H as <- <-. apply Z.leb_le in Le.
      exists [], t. split; [reflexivity|]. split; [intros z []|].
      intros z Hz. destruct (sorted_head_least key _ E) as [_ Hleast].
      specialize (Hleast z Hz). lia.
    + injection H as <- <-. apply Z.leb_gt in Le.
      destruct (IH y r' eq_refl) as (l1 & l2 & -> & H1 & H2).
      exists (x :: l1), l2. split; [reflexivity|]. split; [|exact H2].
      intros z [<-|Hz]; [exact Le | apply H1; exact Hz].
Qed.
End Stability.

Lemma filter_split : forall A (f : A -> bool) l l1 c l2,
  filter f l = l1 ++ c :: l2 ->
  exists p q, l = p ++ c :: q /\ filter f p = l1 /\ filter f q = l2.
Proof.
  intros A f; induction l as [|a l IH]; intros l1 c l2 H; simpl in H.
  - destruct l1; discriminate H.
  - destruct (f a) eqn:Fa.
    + destruct l1 as [|a' l1']; simpl in H.
      * injection H as -> <-. exists [], l. repeat split; reflexivity.
      * injection H as -> H. destruct (IH _ _ _ H) as (p & q & -> & Hp & Hq).
        exists (a' :: p), q. simpl. rewrite Fa, Hp. repeat split; assumption.
    + destruct (IH _ _ _ H) as (p & q & -> & Hp & Hq).
      exists (a :: p), q. simpl. rewrite Fa. repeat split; assumption.
Qed.

Lemma qualifies_filter : forall x, chain_filter x = true <-> qualifies x.
Proof. intro x. apply chain_filter_spec. Qed.

(** X1.  The sort key is the strike alone and the sort is stable: the
    contract [Initialize] selects is the first one, in the order the chain
    provider lists them, among the qualifying puts of least strike.  Every
    qualifying contract listed before it is struck strictly higher, every
    one listed after it at least as high. *)
Theorem Initialize_selects_first_of_least_strike : forall w first rest,
  candidates w = first :: rest ->
  exists before after,
    OptionChainProvider w ES19H21 start = before ++ first :: after /\
    qualifies first /\
    (forall y, In y before -> qualifies y -> StrikeOf first < StrikeOf y) /\
    (forall y, In y after -> qualifies y -> StrikeOf first <= StrikeOf y) /\
    esOption (snd (Initialize w)) = Some first.
Proof.
  intros w first rest H. unfold candidates in H.
  destruct (sorted_head_first StrikeOf _ H) as (l1 & l2 & Hf & H1 & H2).
  destruct (filter_split _ _ _ _ _ Hf) as (p & q & Hc & Hp & Hq).
  exists p, q. split; [exact Hc|]. split; [|split; [|split]].
  - apply qualifies_filter.
    assert (Hin : In first (filter chain_filter
                              (OptionChainProvider w ES19H21 start))).
    { rewrite Hf. apply in_or_app. right; left; reflexivity. }
    apply filter_In in Hin. tauto.
  - intros y Hy Hq'. apply H1. rewrite <- Hp. apply filter_In.
    split; [exact Hy | apply qualifies_filter; exact Hq'].
  - intros y Hy Hq'. apply H2. rewrite <- Hq. apply filter_In.
    split; [exact Hy | apply qualifies_filter; exact Hq'].
  - rewrite Initialize_eq. unfold candidates. rewrite H.
    destruct (Symbol_eqb first ExpectedContract); reflexivity.
Qed.

Lemma Initialize_selects_first_of_least_strike_witness :
  candidates (fresh tied_chain) = [june_put; put_at 3200; put_at 3300] /\
  exists before after,
    tied_chain ES19H21 start = before ++ june_put :: after /\
    esOption (snd (Initialize (fresh tied_chain))) = Some june_put.
Proof.
  assert (Hc : candidates (fresh tied_chain)
               = [june_put; put_at 3200; put_at 3300])
    by (vm_compute; reflexivity).
  split; [exact Hc|].
  destruct (@Initialize_selects_first_of_least_strike (fresh tied_chain) _ _ Hc)
    as (before & after & Hsplit & _ & _ & _ & Hopt).
  exists before, after. split; [exact Hsplit | exact Hopt].
Defined.

(** X2.  Whether setup succeeds, read off the contents of the chain: it
    succeeds when the expected contract is listed and every other qualifying
    put is struck above 3200.0, in whatever order the provider lists them;
    and it succeeds only if the expected contract is listed.  A second put
    struck at 3200.0 listed ahead of the expected one makes setup raise. *)
Theorem Initialize_succeeds_on : forall w,
  let chain := OptionChainProvider w ES19H21 start in
  (In ExpectedContract chain ->
   (forall y, In y chain -> qualifies y -> y <> ExpectedContract ->
      strike 3200 < StrikeOf y) ->
   fst (Initialize w) = Ok tt) /\
  (fst (Initialize w) = Ok tt ->
   In ExpectedContract chain /\
   esOption (snd (Initialize w)) = Some ExpectedContract) /\
  (forall before other after,
     chain = before ++ other :: after ->
     (forall y, In y before -> qualifies y -> strike 3200 < StrikeOf y) ->
     qualifies other -> StrikeOf other = strike 3200 ->
     other <> ExpectedContract ->
     fst (Initialize w)
     = Raise (AssertionError (ContractNotFound ExpectedContract))).
Proof.
  intros w chain. split; [|split].
  - intros Hin Hothers. rewrite Initialize_result.
    assert (Hq : qualifies ExpectedContract) by (split; vm_compute; congruence).
    assert (Hc : In ExpectedContract (candidates w)).
    { apply candidates_In. fold chain. destruct Hq. tauto. }
    destruct (candidates w) as [|first rest] eqn:E; [destruct Hc|].
    destruct (Symbol_eq_dec first ExpectedContract) as [|Hne]; [reflexivity|].
    exfalso.
    assert (Hfirst : In first (candidates w)) by (rewrite E; left; reflexivity).
    apply candidates_In in Hfirst. destruct Hfirst as (Hf1 & Hf2 & Hf3).
    unfold candidates in E.
    destruct (sorted_head_least StrikeOf _ E) as [_ Hleast].
    assert (Hle : StrikeOf first <= StrikeOf ExpectedContract).
    { apply Hleast. apply filter_In. split; [exact Hin|].
      apply qualifies_filter; exact Hq. }
    assert (Hlt : strike 3200 < StrikeOf first).
    { apply Hothers; [exact Hf1 | split; assumption | exact Hne]. }
    change (StrikeOf ExpectedContract) with (strike 3200) in Hle. lia.
  - intro Hok. rewrite Initialize_result in Hok.
    destruct (candidates w) as [|first rest] eqn:E; [discriminate|].
    destruct (Symbol_eq_dec first ExpectedContract) as [->|]; [|discriminate].
    split.
    + assert (Hc : In ExpectedContract (candidates w))
        by (rewrite E; left; reflexivity).
      apply candidates_In in Hc. tauto.
    + rewrite Initialize_eq, E, Symbol_eqb_refl. reflexivity.
  - intros before other after Hsplit Hbefore Hq Hk Hne.
    rewrite Initialize_result.
    assert (Hc : In other (candidates w)).
    { apply candidates_In. fold chain. rewrite Hsplit. destruct Hq.
      split; [apply in_or_app; right; left; reflexivity | tauto]. }
    destruct (candidates w) as [|first rest] eqn:E; [destruct Hc|].
    destruct (Symbol_eq_dec first ExpectedContract) as [->|]; [|reflexivity].
    exfalso.
    destruct (sorted_head_first StrikeOf _ E) as (l1 & l2 & Hf & H1 & _).
    destruct (filter_split _ _ _ _ _ Hf) as (p & q & Hpq & Hp & _).
    fold chain in Hpq. rewrite Hsplit in Hpq.
    (* the expected contract cannot stand before [other], nor after it *)
    assert (Hpos : In ExpectedContract before \/ In other p).
    { clear - Hpq Hne. revert p Hpq.
      induction before as [|b bs IH]; intros [|x p] Hpq; simpl in Hpq.
      - injection Hpq as Hx _. congruence.
      - injection Hpq as <- _. right; left; reflexivity.
      - injection Hpq as <- _. left; left; reflexivity.
      - injection Hpq as <- Hpq. destruct (IH _ Hpq) as [H|H].
        + left; right; exact H.
        + right; right; exact H. }
    destruct Hpos as [Hin|Hin].
    + assert (Hq' : qualifies ExpectedContract)
        by (split; vm_compute; congruence).
      specialize (Hbefore _ Hin Hq').
      change (StrikeOf ExpectedContract) with (strike 3200) in Hbefore. lia.
    + assert (Hl1 : In other l1).
      { rewrite <- Hp. apply filter_In.
        split; [exact Hin | apply qualifies_filter; exact Hq]. }
      specialize (H1 _ Hl1).
      change (StrikeOf ExpectedContract) with (strike 3200) in H1. lia.
Qed.

Lemma Initialize_succeeds_on_witness :
  fst (Initialize (fresh untied_chain)) = Ok tt /\
  fst (Initialize (fresh tied_chain))
    = Raise (AssertionError (ContractNotFound ExpectedContract)).
Proof.
  destruct (Initialize_succeeds_on (fresh untied_chain)) as (Hok & _ & _).
  destruct (Initialize_succeeds_on (fresh tied_chain)) as (_ & _ & Hbad).
  split.
  - apply Hok.
    + simpl. unfold untied_chain. right; right; left; reflexivity.
    + intros y Hy [Hk Hr] Hne. simpl in Hy. unfold untied_chain in Hy.
      destruct Hy as [<-|[<-|[<-|[<-|[<-|[]]]]]];
        solve [ vm_compute; reflexivity
              | exfalso; apply Hne; reflexivity
              | discriminate Hr
              | exfalso; vm_compute in Hk; apply Hk; reflexivity ].
  - apply (Hbad [put_at 3300] june_put [call_at 3100; put_at 3200]).
    + reflexivity.
    + intros y [<-|[]] _. vm_compute; reflexivity.
    + split; vm_compute; congruence.
    + reflexivity.
    + intro H; discriminate H.
Defined.

(** ** What setup registers *)

Lemma lookup_app : forall s l l',
  lookup s (l ++ l') =
  match lookup s l with Some x => Some x | None => lookup s l' end.
Proof.
  intros s l l'; induction l as [|x t IH]; simpl; [reflexivity|].
  destruct (Symbol_eqb (SecSymbol x) s); [reflexivity | exact IH].
Qed.

Lemma lookup_register_same : forall s l,
  lookup s (register s l) = Some (registered s l).
Proof.
  intros s l; unfold register, registered.
  destruct (lookup s l) eqn:E; [exact E|].
  rewrite lookup_app, E. simpl. rewrite Symbol_eqb_refl. reflexivity.
Qed.

Lemma lookup_register_kept : forall s s' l x,
  lookup s l = Some x -> lookup s (register s' l) = Some x.
Proof.
  intros s s' l x H; unfold register.
  destruct (lookup s' l); [exact H|]. rewrite lookup_app, H. reflexivity.
Qed.

Lemma ContainsKey_register_same : forall s l,
  ContainsKey s (register s l) = true.
Proof.
  intros s l. unfold ContainsKey. rewrite lookup_register_same. reflexivity.
Qed.

Lemma ContainsKey_register_kept : forall s s' l,
  ContainsKey s l = true -> ContainsKey s (register s' l) = true.
Proof.
  intros s s' l H. apply ContainsKey_lookup in H. destruct H as [x Hx].
  unfold ContainsKey. rewrite (@lookup_register_kept s s' l x Hx). reflexivity.
Qed.

Lemma setup_securities_keys : forall w,
  ContainsKey AAPL (setup_securities w) = true /\
  ContainsKey ES19H21 (setup_securities w) = true.
Proof.
  intro w; unfold setup_securities; split.
  - apply ContainsKey_register_kept. apply ContainsKey_register_same.
  - apply ContainsKey_register_same.
Qed.

(** X3.  A setup that raises has registered the equity and the future, has
    scheduled nothing and has ordered nothing.  When it raises the
    [IndexError], [es19h21] is assigned and the two other attributes are as
    they were; when it raises the [AssertionError], the contract it
    selected, which is not the expected one, is already registered as a
    security and stored in [esOption]. *)
Theorem Initialize_failure_effects : forall w e,
  fst (Initialize w) = Raise e ->
  let w' := snd (Initialize w) in
  Schedule w' = Schedule w /\
  Transactions w' = Transactions w /\
  es19h21 w' = Some ES19H21 /\
  ContainsKey AAPL (Securities w') = true /\
  ContainsKey ES19H21 (Securities w') = true /\
  (e = IndexError ->
   esOption w' = esOption w /\ expectedContract w' = expectedContract w /\
   Securities w' = setup_securities w) /\
  (e <> IndexError ->
   exists selected,
     esOption w' = Some selected /\ selected <> ExpectedContract /\
     expectedContract w' = Some ExpectedContract /\
     ContainsKey selected (Securities w') = true).
Proof.
  intros w e. rewrite Initialize_eq.
  destruct (setup_securities_keys w) as [Ha Hf].
  destruct (candidates w) as [|first rest]; simpl.
  - intros [= <-]. repeat split; auto. intro H; congruence.
  - destruct (Symbol_eqb first ExpectedContract) eqn:E; simpl; [discriminate|].
    intros [= <-]. repeat split; auto using ContainsKey_register_kept;
      try discriminate.
    intros _. exists first. repeat split.
    + apply Symbol_eqb_neq; exact E.
    + apply ContainsKey_register_same.
Qed.

Lemma Initialize_failure_effects_witness :
  Schedule (snd (Initialize (fresh tied_chain))) = [] /\
  esOption (snd (Initialize (fresh tied_chain))) = Some june_put /\
  ContainsKey june_put (Securities (snd (Initialize (fresh tied_chain)))) = true /\
  esOption (snd (Initialize (fresh low_chain))) = None.
Proof.
  assert (H1 : fst (Initialize (fresh tied_chain))
               = Raise (AssertionError (ContractNotFound ExpectedContract)))
    by (vm_compute; reflexivity).
  assert (H2 : fst (Initialize (fresh low_chain)) = Raise IndexError)
    by (vm_compute; reflexivity).
  destruct (@Initialize_failure_effects (fresh tied_chain) _ H1)
    as (Hs & _ & _ & _ & _ & _ & Hsel).
  destruct (@Initialize_failure_effects (fresh low_chain) _ H2)
    as (_ & _ & _ & _ & _ & Hidx & _).
  split; [exact Hs|].
  destruct Hsel as (sel & Ho & _ & _ & Hk); [discriminate|].
  assert (Hj : esOption (snd (Initialize (fresh tied_chain))) = Some june_put)
    by (vm_compute; reflexivity).
  split; [exact Hj|]. split.
  - rewrite Hj in Ho. injection Ho as <-. exact Hk.
  - apply Hidx. reflexivity.
Defined.

(** X4.  Setup asks the chain provider one question, the contracts of the
    future at 2020-09-22: two engines that answer it alike, whatever they
    answer elsewhere, and otherwise start alike, get the same result, the
    same attributes, securities, schedule and orders. *)
Theorem Initialize_queries_chain_once : forall w1 w2,
  observe w1 = observe w2 ->
  OptionChainProvider w1 ES19H21 start = OptionChainProvider w2 ES19H21 start ->
  fst (Initialize w1) = fst (Initialize w2) /\
  observe (snd (Initialize w1)) = observe (snd (Initialize w2)).
Proof.
  intros w1 w2 Ho Hc. rewrite !Initialize_eq.
  unfold candidates, setup_securities. rewrite Hc.
  unfold observe in Ho. injection Ho as H1 H2 H3 H4 H5 H6.
  destruct (sorted _ _) as [|first rest]; simpl.
  - split; [reflexivity|]. unfold observe; simpl. congruence.
  - destruct (Symbol_eqb first ExpectedContract); simpl;
      (split; [reflexivity|]); unfold observe; simpl; congruence.
Qed.

Lemma Initialize_queries_chain_once_witness :
  fst (Initialize (fresh elsewhere_chain)) = Ok tt /\
  observe (snd (Initialize (fresh elsewhere_chain)))
    = observe (snd (Initialize (fresh sample_chain))) /\
  elsewhere_chain AAPL start <> sample_chain AAPL start.
Proof.
  destruct (@Initialize_queries_chain_once
              (fresh elsewhere_chain) (fresh sample_chain) eq_refl eq_refl)
    as [Hr Ho].
  split; [rewrite Hr; vm_compute; reflexivity|].
  split; [exact Ho|]. intro H; discriminate H.
Defined.

(** ** Setup followed by order events *)

Lemma symbols_distinct :
  ES19H21 <> ExpectedContract /\ AAPL <> ES19H21 /\ AAPL <> ExpectedContract.
Proof. repeat split; intro H; discriminate H. Qed.

(** X5.  After a successful setup the three securities the script added are
    in the securities collection, so a fill is never reported as unknown to
    the collection for them: a filled event on the future raises the
    underlying error, one on the equity raises the unknown-symbol error, and
    one on the expected contract reaches the holdings assertions, run on the
    security registered for it, and is logged when they pass. *)
Theorem OnOrderEvent_after_setup : forall w e,
  fst (Initialize w) = Ok tt -> Status e = Filled ->
  let w' := snd (Initialize w) in
  (OESymbol e = ES19H21 ->
   OnOrderEvent e w'
   = (Raise (AssertionError (NoOrderEventsForUnderlying ES19H21)), w')) /\
  (OESymbol e = AAPL ->
   OnOrderEvent e w' = (Raise (AssertionError (UnknownSymbol AAPL)), w')) /\
  (OESymbol e = ExpectedContract ->
   exists security,
     lookup ExpectedContract (Securities w') = Some security /\
     SecSymbol security = ExpectedContract /\
     OnOrderEvent e w'
     = (AssertFutureOptionContractOrder e security ;;
        Log (LogOrderEvent e)) w').
Proof.
  intros w e Hok Hst w'. subst w'.
  destruct symbols_distinct as (Hfe & Haf & Hae).
  assert (Hw : exists w', snd (Initialize w) = w' /\
             es19h21 w' = Some ES19H21 /\
             expectedContract w' = Some ExpectedContract /\
             Securities w' = register ExpectedContract (setup_securities w)).
  { rewrite Initialize_eq in Hok |- *.
    destruct (candidates w) as [|first rest]; [discriminate|].
    destruct (Symbol_eqb first ExpectedContract) eqn:E; [|discriminate].
    apply Symbol_eqb_eq in E. subst first.
    eexists; split; [reflexivity|]. simpl. repeat split. }
  destruct Hw as (w' & -> & Hu & Hc & Hs).
  destruct (setup_securities_keys w) as [Ha Hf].
  apply (@ContainsKey_register_kept AAPL ExpectedContract) in Ha.
  apply (@ContainsKey_register_kept ES19H21 ExpectedContract) in Hf.
  rewrite <- Hs in Ha, Hf.
  apply ContainsKey_lookup in Ha, Hf.
  destruct Ha as [xa Hxa], Hf as [xf Hxf].
  split; [|split]; intro He;
    rewrite (OnOrderEvent_filled e w' Hst Hu Hc), He.
  - rewrite Hxf, Symbol_eqb_refl. reflexivity.
  - rewrite Hxa.
    apply Symbol_eqb_neq in Haf, Hae. rewrite Haf, Hae. reflexivity.
  - rewrite Hs, lookup_register_same.
    exists (registered ExpectedContract (setup_securities w)).
    split; [reflexivity|]. split; [apply registered_symbol|].
    apply Symbol_eqb_neq in Hfe.
    assert (Hef : Symbol_eqb ExpectedContract ES19H21 = false).
    { apply Symbol_eqb_neq. intro H; discriminate H. }
    rewrite Hef, Symbol_eqb_refl. reflexivity.
Qed.

Lemma OnOrderEvent_after_setup_witness :
  fst (OnOrderEvent (mkOrderEvent ES19H21 Filled Buy false)
         (snd (Initialize (fresh sample_chain))))
    = Raise (AssertionError (NoOrderEventsForUnderlying ES19H21)) /\
  fst (OnOrderEvent (mkOrderEvent AAPL Filled Buy false)
         (snd (Initialize (fresh sample_chain))))
    = Raise (AssertionError (UnknownSymbol AAPL)) /\
  fst (OnOrderEvent buy_fill (snd (Initialize (fresh sample_chain)))) = Ok tt.
Proof.
  assert (Hok : fst (Initialize (fresh sample_chain)) = Ok tt)
    by (vm_compute; reflexivity).
  destruct (@OnOrderEvent_after_setup (fresh sample_chain)
              (mkOrderEvent ES19H21 Filled Buy false) Hok eq_refl)
    as (H1 & _ & _).
  destruct (@OnOrderEvent_after_setup (fresh sample_chain)
              (mkOrderEvent AAPL Filled Buy false) Hok eq_refl)
    as (_ & H2 & _).
  destruct (@OnOrderEvent_after_setup (fresh sample_chain) buy_fill Hok eq_refl)
    as (_ & _ & H3).
  split; [rewrite (H1 eq_refl); reflexivity|].
  split; [rewrite (H2 eq_refl); reflexivity|].
  destruct (H3 eq_refl) as (sec & Hl & _ & Hr).
  rewrite Hr. vm_compute in Hl. injection Hl as <-. vm_compute. reflexivity.
Defined.

(** ** The first ill-timed delisting *)

Lemma check_delisting_message : forall d w,
  ~ timestamp_ok d ->
  check_delisting d w = (Raise (AssertionError (delisting_message d)), w).
Proof.
  intros d w Hbad. rewrite check_delisting_eq. unfold delisting_message.
  destruct (DType d) eqn:E.
  - destruct (datetime_eq_dec (DTime d) (date 2021 3 19)) as [e|n];
      [|reflexivity].
    exfalso. apply Hbad. split; intro H; [exact e | congruence].
  - destruct (datetime_eq_dec (DTime d) (date 2021 3 20)) as [e|n];
      [|reflexivity].
    exfalso. apply Hbad. split; intro H; [congruence | exact e].
Qed.

(** X6.  [OnData] stops at the first delisting, in the order the slice
    yields them, whose time is not the expected one: the error raised is the
    one of that delisting, a warning or a final one, and carries its time;
    the delistings after it are not examined. *)
Theorem OnData_raises_for_first_offender : forall data w good d others,
  Values (Delistings data) = good ++ d :: others ->
  (forall g, In g good -> timestamp_ok g) ->
  ~ timestamp_ok d ->
  OnData data w = (Raise (AssertionError (delisting_message d)), w).
Proof.
  intros data w good d others Hv Hgood Hbad. unfold OnData. rewrite Hv.
  clear Hv. induction good as [|g gs IH]; simpl.
  - erewrite bind_raise by (apply check_delisting_message; exact Hbad).
    reflexivity.
  - erewrite bind_ok
      by (apply check_delisting_ok; apply Hgood; left; reflexivity).
    apply IH. intros x Hx. apply Hgood. right; exact Hx.
Qed.

Lemma OnData_raises_for_first_offender_witness :
  OnData (slice_of [warning_on_expiry; early_delisted; late_warning])
         (fresh sample_chain)
  = (Raise (AssertionError (DelistingUnexpectedDate (date 2021 3 19))),
     fresh sample_chain).
Proof.
  apply (@OnData_raises_for_first_offender
           (slice_of [warning_on_expiry; early_delisted; late_warning])
           (fresh sample_chain) [warning_on_expiry] early_delisted
           [late_warning]).
  - reflexivity.
  - intros g [<-|[]]. split; intro H; [reflexivity | discriminate H].
  - intros [_ H]. specialize (H eq_refl). discriminate H.
Defined.

(** ** What an order event changes *)

Lemma OnOrderEvent_eq : forall e w,
  OnOrderEvent e w =
  if OrderStatus_eq_dec (Status e) Filled then
    match lookup (OESymbol e) (Securities w) with
    | None => (Raise (AssertionError (SymbolNotInSecurities (OESymbol e))), w)
    | Some security =>
        match es19h21 w with
        | None => (Raise (AttributeError "es19h21"), w)
        | Some u =>
            if Symbol_eqb (SecSymbol security) u
            then (Raise (AssertionError
                           (NoOrderEventsForUnderlying (SecSymbol security))), w)
            else
              match expectedContract w with
              | None => (Raise (AttributeError "expectedContract"), w)
              | Some c =>
                  if Symbol_eqb (SecSymbol security) c
                  then (AssertFutureOptionContractOrder e security ;;
                        Log (LogOrderEvent e)) w
                  else (Raise (AssertionError (UnknownSymbol (OESymbol e))), w)
              end
        end
    end
  else (Ok tt, w).
Proof.
  intros e w. unfold OnOrderEvent.
  destruct (OrderStatus_eq_dec (Status e) Filled); [|reflexivity].
  cbv beta delta [bind gets] iota.
  destruct (lookup (OESymbol e) (Securities w)) as [sec|]; [|reflexivity].
  cbv beta delta [attr] iota.
  destruct (es19h21 w) as [u|]; [|reflexivity].
  destruct (Symbol_eqb (SecSymbol sec) u); [reflexivity|].
  cbv beta delta [ret] iota.
  destruct (expectedContract w) as [c|]; [|reflexivity].
  destruct (Symbol_eqb (SecSymbol sec) c); reflexivity.
Qed.

Ltac event_done :=
  simpl; repeat split; intros;
  solve [reflexivity | discriminate | contradiction | congruence].

(** X7.  [OnOrderEvent] never touches the attributes, the securities, the
    schedule or the submitted orders.  It appends the event to the log
    exactly when the event is a fill that passes every check; when it
    raises, and when the event is not a fill, the whole state is as it
    was. *)
Theorem OnOrderEvent_logs_only_on_success : forall e w,
  let r := OnOrderEvent e w in
  observe (snd r) = observe w /\
  (Status e = Filled -> fst r = Ok tt ->
   LogLines (snd r) = LogLines w ++ [LogOrderEvent e]) /\
  (Status e <> Filled -> r = (Ok tt, w)) /\
  (forall x, fst r = Raise x -> snd r = w).
Proof.
  intros e w r. subst r. rewrite OnOrderEvent_eq.
  destruct (OrderStatus_eq_dec (Status e) Filled) as [Hst|Hst];
    [|event_done].
  destruct (lookup (OESymbol e) (Securities w)) as [sec|]; [|event_done].
  destruct (es19h21 w) as [u|]; [|event_done].
  destruct (Symbol_eqb (SecSymbol sec) u); [event_done|].
  destruct (expectedContract w) as [c|]; [|event_done].
  destruct (Symbol_eqb (SecSymbol sec) c); [|event_done].
  unfold bind. rewrite AssertFutureOptionContractOrder_eq.
  destruct (_ && _); [event_done|].
  destruct (_ && _); [event_done|].
  destruct (IsAssignment e); event_done.
Qed.

Lemma OnOrderEvent_logs_only_on_success_witness :
  LogLines (snd (OnOrderEvent sell_fill (world_with short_book)))
    = [LogOrderEvent sell_fill] /\
  snd (OnOrderEvent sell_fill (world_with flat_book)) = world_with flat_book.
Proof.
  destruct (OnOrderEvent_logs_only_on_success sell_fill (world_with short_book))
    as (_ & Hlog & _).
  destruct (OnOrderEvent_logs_only_on_success sell_fill (world_with flat_book))
    as (_ & _ & _ & Hraise).
  split.
  - apply Hlog; reflexivity.
  - apply (Hraise (AssertionError (NoHoldingsCreated ExpectedContract))).
    reflexivity.
Defined.

(** ** The holdings assertions, completely *)

(** X8.  [AssertFutureOptionContractOrder] returns normally exactly when a
    sell left the quantity at -1, a buy left it at 0 and the event is not an
    assignment.  An event whose direction is neither, [Hold], is never
    compared with the holdings: only its assignment flag is checked. *)
Theorem AssertFutureOptionContractOrder_passes_iff : forall e sec w,
  (fst (AssertFutureOptionContractOrder e sec w) = Ok tt <->
   (Direction e = Sell -> (HoldingsQuantity sec == -1)%Q) /\
   (Direction e = Buy -> (HoldingsQuantity sec == 0)%Q) /\
   IsAssignment e = false) /\
  (Direction e = Hold ->
   fst (AssertFutureOptionContractOrder e sec w)
   = if IsAssignment e
     then Raise (AssertionError (AssignmentNotExpected (OESymbol e)))
     else Ok tt).
Proof.
  intros e sec w. rewrite AssertFutureOptionContractOrder_eq. simpl.
  split.
  - destruct (OrderDirection_eq_dec (Direction e) Sell) as [Hs|Hs];
      destruct (OrderDirection_eq_dec (Direction e) Buy) as [Hb|Hb];
      try congruence; simpl.
    + destruct (Qeq_bool (HoldingsQuantity sec) (-1)) eqn:E; simpl.
      * apply Qeq_bool_iff in E.
        destruct (IsAssignment e); split.
        -- discriminate.
        -- intros (_ & _ & H); discriminate H.
        -- intros _. split; [intros _; exact E|].
           split; [intro; contradiction | reflexivity].
        -- reflexivity.
      * split; [discriminate|]. intros (H & _ & _).
        apply H, Qeq_bool_iff in Hs. congruence.
    + destruct (Qeq_bool (HoldingsQuantity sec) 0) eqn:E; simpl.
      * apply Qeq_bool_iff in E.
        destruct (IsAssignment e); split.
        -- discriminate.
        -- intros (_ & _ & H); discriminate H.
        -- intros _. split; [intro; contradiction|].
           split; [intros _; exact E | reflexivity].
        -- reflexivity.
      * split; [discriminate|]. intros (_ & H & _).
        apply H, Qeq_bool_iff in Hb. congruence.
    + destruct (IsAssignment e); split.
      * discriminate.
      * intros (_ & _ & H); discriminate H.
      * intros _. split; [intro; contradiction|].
        split; [intro; contradiction | reflexivity].
      * reflexivity.
  - intro Hh.
    destruct (OrderDirection_eq_dec (Direction e) Sell); [congruence|].
    destruct (OrderDirection_eq_dec (Direction e) Buy); [congruence|].
    reflexivity.
Qed.

Lemma AssertFutureOptionContractOrder_passes_iff_witness :
  fst (AssertFutureOptionContractOrder
         (mkOrderEvent ExpectedContract Filled Hold false)
         (mkSecurity ExpectedContract 7%Q) (fresh sample_chain)) = Ok tt /\
  ((Direction sell_fill = Sell -> (HoldingsQuantity short_one == -1)%Q) /\
   (Direction sell_fill = Buy -> (HoldingsQuantity short_one == 0)%Q) /\
   IsAssignment sell_fill = false).
Proof.
  split.
  - destruct (AssertFutureOptionContractOrder_passes_iff
                (mkOrderEvent ExpectedContract Filled Hold false)
                (mkSecurity ExpectedContract 7%Q) (fresh sample_chain))
      as [_ H].
    rewrite (H eq_refl). reflexivity.
  - apply (AssertFutureOptionContractOrder_passes_iff sell_fill short_one
             (fresh sample_chain)).
    reflexivity.
Defined.

(** ** Callbacks before setup *)

Lemma OnData_ok_or_assertion : forall data w,
  ok_or_assertion (fst (OnData data w)).
Proof.
  intros data w. unfold OnData.
  induction (Values (Delistings data)) as [|d t IH]; simpl.
  - left; reflexivity.
  - destruct (timestamp_ok_dec d) as [Hd|Hd].
    + erewrite bind_ok by (apply check_delisting_ok; exact Hd). exact IH.
    + erewrite bind_raise by (apply check_delisting_message; exact Hd).
      right. eexists; reflexivity.
Qed.

Lemma OnEndOfAlgorithm_ok_or_assertion : forall w,
  ok_or_assertion (fst (OnEndOfAlgorithm w)).
Proof.
  intro w. rewrite OnEndOfAlgorithm_eq. simpl.
  destruct (PortfolioInvested w); [right; eexists | left]; reflexivity.
Qed.

(** X9.  The callbacks on an instance whose setup has not assigned the
    attributes.  [ScheduledMarketOrder] fails on reading [esOption] and
    submits nothing.  [OnOrderEvent] reads the attributes late: a fill on a
    symbol that is not in the securities collection still raises its
    [AssertionError], a fill on a registered symbol fails on [es19h21], and
    with only [es19h21] assigned a fill on it raises the underlying error
    while any other registered symbol fails on [expectedContract].  [OnData]
    and [OnEndOfAlgorithm] read no attribute and never fail that way. *)
Theorem callbacks_before_setup : forall w,
  (esOption w = None ->
   ScheduledMarketOrder w = (Raise (AttributeError "esOption"), w)) /\
  (forall e, Status e = Filled ->
     lookup (OESymbol e) (Securities w) = None ->
     OnOrderEvent e w
     = (Raise (AssertionError (SymbolNotInSecurities (OESymbol e))), w)) /\
  (forall e sec, Status e = Filled ->
     lookup (OESymbol e) (Securities w) = Some sec -> es19h21 w = None ->
     OnOrderEvent e w = (Raise (AttributeError "es19h21"), w)) /\
  (forall e sec u, Status e = Filled ->
     lookup (OESymbol e) (Securities w) = Some sec ->
     es19h21 w = Some u -> expectedContract w = None ->
     OnOrderEvent e w
     = if Symbol_eqb (OESymbol e) u
       then (Raise (AssertionError (NoOrderEventsForUnderlying (OESymbol e))), w)
       else (Raise (AttributeError "expectedContract"), w)) /\
  (forall data, ok_or_assertion (fst (OnData data w))) /\
  ok_or_assertion (fst (OnEndOfAlgorithm w)).
Proof.
  intro w. split; [|split; [|split; [|split; [|split]]]].
  - intro H. unfold ScheduledMarketOrder, bind, attr. rewrite H. reflexivity.
  - intros e Hst Hl. rewrite OnOrderEvent_eq, Hl.
    destruct (OrderStatus_eq_dec (Status e) Filled); [reflexivity|contradiction].
  - intros e sec Hst Hl Hu. rewrite OnOrderEvent_eq, Hl, Hu.
    destruct (OrderStatus_eq_dec (Status e) Filled); [reflexivity|contradiction].
  - intros e sec u Hst Hl Hu Hc. rewrite OnOrderEvent_eq, Hl, Hu, Hc.
    rewrite (lookup_symbol _ _ Hl).
    destruct (OrderStatus_eq_dec (Status e) Filled); [reflexivity|contradiction].
  - intro data. apply OnData_ok_or_assertion.
  - apply OnEndOfAlgorithm_ok_or_assertion.
Qed.

Lemma callbacks_before_setup_witness :
  ScheduledMarketOrder before_setup
    = (Raise (AttributeError "esOption"), before_setup) /\
  OnOrderEvent (mkOrderEvent june_put Filled Sell false) before_setup
    = (Raise (AssertionError (SymbolNotInSecurities june_put)), before_setup) /\
  OnOrderEvent sell_fill before_setup
    = (Raise (AttributeError "es19h21"), before_setup) /\
  OnOrderEvent sell_fill half_setup
    = (Raise (AttributeError "expectedContract"), half_setup).
Proof.
  destruct (callbacks_before_setup before_setup) as (H1 & H2 & H3 & _).
  destruct (callbacks_before_setup half_setup) as (_ & _ & _ & H4 & _).
  split; [apply H1; reflexivity|].
  split; [apply H2; reflexivity|].
  split; [apply (H3 sell_fill short_one); reflexivity|].
  rewrite (H4 sell_fill short_one ES19H21); reflexivity.
Defined.

(** ** Exceptions of a run *)

Lemma assigned_frame : forall w w',
  attributes w' = attributes w -> assigned w -> assigned w'.
Proof.
  intros w w' H (u & o & c & Ha). exists u, o, c. rewrite H. exact Ha.
Qed.

Lemma fire_all_ok : forall due w s,
  esOption w = Some s ->
  fst (for_each (fun e => call (Action e)) due w) = Ok tt.
Proof.
  induction due as [|[d sy n []] t IH]; intros w s H; simpl; [reflexivity|].
  erewrite bind_ok by (apply ScheduledMarketOrder_eq; exact H).
  apply (IH _ s). exact H.
Qed.

Lemma dispatch_ok_or_assertion : forall ev w,
  assigned w -> ok_or_assertion (fst (dispatch ev w)).
Proof.
  intros ev w (u & o & c & Ha). unfold attributes in Ha.
  injection Ha as Hu Ho Hc.
  destruct ev as [data|e|s q| |]; simpl.
  - apply OnData_ok_or_assertion.
  - rewrite OnOrderEvent_eq, Hu, Hc.
    destruct (OrderStatus_eq_dec (Status e) Filled); [|left; reflexivity].
    destruct (lookup (OESymbol e) (Securities w)) as [sec|];
      [|right; eexists; reflexivity].
    destruct (Symbol_eqb (SecSymbol sec) u); [right; eexists; reflexivity|].
    destruct (Symbol_eqb (SecSymbol sec) c); [|right; eexists; reflexivity].
    unfold bind. rewrite AssertFutureOptionContractOrder_eq.
    destruct (_ && _); [right; eexists; reflexivity|].
    destruct (_ && _); [right; eexists; reflexivity|].
    destruct (IsAssignment e); [right; eexists | left]; reflexivity.
  - left; reflexivity.
  - left. unfold bind, TakeDue. apply (@fire_all_ok _ _ o). exact Ho.
  - apply OnEndOfAlgorithm_ok_or_assertion.
Qed.

Lemma run_ok_or_assertion : forall evs w,
  assigned w -> ok_or_assertion (fst (for_each dispatch evs w)).
Proof.
  induction evs as [|ev t IH]; intros w H; simpl; [left; reflexivity|].
  pose proof (dispatch_ok_or_assertion ev H) as Hr.
  pose proof (frame_dispatch_attributes ev w) as Hf.
  unfold bind. destruct (dispatch ev w) as [[[]|x] w']; simpl in *.
  - apply IH. eapply assigned_frame; [exact Hf | exact H].
  - exact Hr.
Qed.

(** X10.  The only exception a run can end with that is not an
    [AssertionError] is the [IndexError] of setup on a chain without a
    qualifying put.  Setup assigns each attribute before it reads it, from
    any starting state, and after a successful setup every attribute a
    callback reads is assigned: no run fails with an [AttributeError]. *)
Theorem run_raises_only_assertions : forall evs w,
  (fst (Initialize w) = Ok tt -> assigned (snd (Initialize w))) /\
  (fst (backtest evs w) = Ok tt \/
   raises_assertion (fst (backtest evs w)) \/
   (fst (backtest evs w) = Raise IndexError /\ candidates w = [])).
Proof.
  intros evs w.
  assert (Ha : fst (Initialize w) = Ok tt -> assigned (snd (Initialize w))).
  { rewrite Initialize_eq.
    destruct (candidates w) as [|first rest]; [discriminate|].
    destruct (Symbol_eqb first ExpectedContract); [|discriminate].
    intros _. do 3 eexists. reflexivity. }
  split; [exact Ha|].
  unfold backtest, bind. pose proof (Initialize_result w) as Hr.
  destruct (Initialize w) as [[[]|x] w'] eqn:E; simpl in *.
  - destruct (run_ok_or_assertion evs (Ha eq_refl)) as [H|H]; auto.
  - destruct (candidates w) as [|first rest].
    + right; right. split; [exact Hr | reflexivity].
    + destruct (Symbol_eq_dec first ExpectedContract); [discriminate|].
      right; left. eexists; exact Hr.
Qed.

Lemma run_raises_only_assertions_witness :
  assigned (snd (Initialize (fresh sample_chain))) /\
  raises_assertion
    (fst (backtest [EvScheduleDue; EvOrderEvent sell_fill]
            (fresh sample_chain))).
Proof.
  destruct (run_raises_only_assertions
              [EvScheduleDue; EvOrderEvent sell_fill] (fresh sample_chain))
    as [Ha Hr].
  split.
  - apply Ha. vm_compute. reflexivity.
  - destruct Hr as [H|[H|[H _]]].
    + vm_compute in H. discriminate H.
    + exact H.
    + vm_compute in H. discriminate H.
Defined.
